(** * ETL pipeline: tabular cleaning, enrichment, validation and incremental load

    A shallow embedding of the pandas pipeline of the repository:
    - [Frame], [Rows]: cells, key normalisation, numerals, dates, row types;
    - [LoadData]: load_data.py ([clean_products], [clean_sales]);
    - [Validation]: etl_pipeline_with_validations.py ([validate_sales_data]);
    - [Incremental]: incremental_pipeline.py (watermark store,
      [process_sales_data]);
    - [Enrichment]: etl_data_enrichment.py and etl_pipeline_api_extended.py
      ([fetch_product_metadata], [enrich_product_data], [transform_products],
      [transform_sales]).

    A DataFrame is a list of row records, one record type per set of columns;
    a nullable column is an [option] (or a cell type with explicit missing
    markers), [None] standing for NaN / NaT / <NA>.  Integer columns are [Z];
    decimal columns (float64 in pandas) are exact rationals [Q], so rounding is
    not part of the model.  The SQL tables the code writes are explicit state;
    a raised exception is [None], and a write the database may refuse takes
    the database's answer as a parameter.  The libraries behave as pandas 2.x
    and SQLAlchemy 2.x do.  Logging never influences a returned frame or a
    table; the one line modelled is the one [update_last_processed_date]
    logs. *)

From Stdlib Require Import ZArith QArith Qabs DecimalString Ascii.
From stdpp Require Import base gmap list strings sorting.

Local Open Scope Z_scope.

(** ** Cells, strings, numbers and dates shared by all pipelines *)
Module Frame.

(** A cell of a key column.  [CNaN] is a value missing from a CSV file (or a
    key absent from a JSON object), [CNone] a JSON [null].  An integer column
    that also holds NaN is float64 in pandas and prints 1 as 1.0; keys are
    integers or texts here, as the input files and the API provide them. *)
Inductive cell :=
  | CNaN
  | CNone
  | CInt (z : Z)
  | CStr (s : string).

#[global] Instance cell_eq_dec : EqDecision cell.
Proof. solve_decision. Defined.

(** A cell of a decimal column: already a number, or text still to be parsed. *)
Inductive num_cell :=
  | NNaN
  | NNum (q : Q)
  | NStr (s : string).

(** [str(z)] for a Python int. *)
Definition string_of_Z (z : Z) : string :=
  NilZero.string_of_int (Z.to_int z).

(** [Series.astype(str)]: [str] of every element, the missing ones included. *)
Definition astype_str (c : cell) : string :=
  match c with
  | CNaN => "nan"
  | CNone => "None"
  | CInt z => string_of_Z z
  | CStr s => s
  end.

(** ASCII part of [str.isspace]. *)
Definition is_space (a : ascii) : bool :=
  let n := Z.of_N (N_of_ascii a) in
  ((9 <=? n) && (n <=? 13)) || ((28 <=? n) && (n <=? 32)).

Fixpoint lstrip (l : list ascii) : list ascii :=
  match l with
  | a :: l' => if is_space a then lstrip l' else l
  | [] => []
  end.

(** [str.strip()] with no argument. *)
Definition strip (s : string) : string :=
  String.string_of_list_ascii
    (rev (lstrip (rev (lstrip (String.list_ascii_of_string s))))).

(** [Series.astype(str).str.strip()], the join-key normalisation. *)
Definition normalize_key (c : cell) : string := strip (astype_str c).

(** [pd.to_numeric(..., errors='coerce').astype('Int64').astype(str).str.strip()]
    on a numeric key column of a sales frame: [<NA>] prints as the text <NA>. *)
Definition normalize_int_key (k : option Z) : string :=
  match k with
  | Some z => strip (string_of_Z z)
  | None => strip "<NA>"
  end.

(** *** Decimal numerals *)

Definition digit (a : ascii) : option Z :=
  let n := Z.of_N (N_of_ascii a) in
  if (48 <=? n) && (n <=? 57) then Some (n - 48) else None.

Fixpoint digits (acc : Z) (l : list ascii) : option Z :=
  match l with
  | [] => Some acc
  | a :: l' =>
      match digit a with
      | Some d => digits (10 * acc + d) l'
      | None => None
      end
  end.

Fixpoint split_point (l : list ascii) : list ascii * option (list ascii) :=
  match l with
  | [] => ([], None)
  | a :: l' =>
      if Ascii.eqb a "."%char then ([], Some l')
      else let '(ip, fp) := split_point l' in (a :: ip, fp)
  end.

(** An unsigned numeral: digits, optionally a point and more digits, at least
    one digit overall. *)
Definition unsigned_decimal (l : list ascii) : option Q :=
  match split_point l with
  | (ip, None) =>
      match ip with
      | [] => None
      | _ => n ← digits 0 ip; Some (inject_Z n)
      end
  | (ip, Some fp) =>
      match ip ++ fp with
      | [] => None
      | ds => n ← digits 0 ds;
              Some (Qmake n (Z.to_pos (10 ^ Z.of_nat (length fp))))
      end
  end.

(** The text-to-number step of [pd.to_numeric]: surrounding blanks, a sign and
    a plain decimal numeral.  Exponents, [inf], [nan] and digit separators are
    outside this parser; no statement below depends on which texts parse. *)
Definition parse_number (s : string) : option Q :=
  match String.list_ascii_of_string (strip s) with
  | "-"%char :: l => Qopp <$> unsigned_decimal l
  | "+"%char :: l => unsigned_decimal l
  | l => unsigned_decimal l
  end.

(** [pd.to_numeric(col, errors='coerce')] on one cell; [None] is NaN. *)
Definition to_numeric (c : num_cell) : option Q :=
  match c with
  | NNaN => None
  | NNum q => Some q
  | NStr s => parse_number s
  end.

(** *** Calendar dates *)

Record date := mkDate { year : Z; month : Z; day : Z }.

Definition date_compare (a b : date) : comparison :=
  match year a ?= year b with
  | Eq => match month a ?= month b with
          | Eq => day a ?= day b
          | c => c
          end
  | c => c
  end.

Definition date_ltb (a b : date) : bool :=
  match date_compare a b with Lt => true | _ => false end.

Definition date_leb (a b : date) : bool := negb (date_ltb b a).

Definition date_max (a b : date) : date := if date_ltb a b then b else a.

Definition is_leap (y : Z) : bool :=
  (y mod 4 =? 0) && (negb (y mod 100 =? 0) || (y mod 400 =? 0)).

Definition days_in_month (y m : Z) : Z :=
  if bool_decide (m ∈ [1; 3; 5; 7; 8; 10; 12]) then 31
  else if bool_decide (m ∈ [4; 6; 9; 11]) then 30
  else if m =? 2 then (if is_leap y then 29 else 28)
  else 0.

(** [pd.to_datetime(text, format='%Y-%m-%d', errors='coerce')] on one text:
    [None] is NaT.  Only the ISO form YYYY-MM-DD the input files are expected
    to use is recognised, within the years a nanosecond timestamp can hold.
    The calls that pass no format are read with the same recogniser; no
    statement below depends on which texts are dates, apart from examples
    on texts that are plainly not. *)
Definition to_datetime (s : string) : option date :=
  match String.list_ascii_of_string s with
  | [y1; y2; y3; y4; "-"%char; m1; m2; "-"%char; d1; d2] =>
      y ← digits 0 [y1; y2; y3; y4];
      m ← digits 0 [m1; m2];
      d ← digits 0 [d1; d2];
      if (1678 <=? y) && (y <=? 2261) && (1 <=? m) && (m <=? 12)
         && (1 <=? d) && (d <=? days_in_month y m)
      then Some (mkDate y m d) else None
  | _ => None
  end.

(** A transaction_date column read from CSV: text, or missing. *)
Definition to_datetime_cell (c : option string) : option date :=
  c ≫= to_datetime.

(** Zero-padded decimal of a non-negative number, at least [width] wide. *)
Definition zero_pad (width : nat) (z : Z) : string :=
  let s := string_of_Z z in
  String.string_of_list_ascii (replicate (width - String.length s) "0"%char) +:+ s.

(** [Timestamp.strftime('%Y-%m')]. *)
Definition strftime_Ym (d : date) : string :=
  zero_pad 4 (year d) +:+ "-" +:+ zero_pad 2 (month d).

End Frame.

(** ** Row types of the three input files *)
Module Rows.
Import Frame.

(** products.csv: product_id, product_name, category, price. *)
Record product := mkProduct {
  product_id : cell;
  product_name : option string;
  category : option string;
  price : num_cell
}.

(** sales.csv as [pd.read_csv] returns it: the date is still text. *)
Record raw_sale := mkRawSale {
  raw_transaction_id : option Z;
  raw_product_id : option Z;
  raw_customer_id : option Z;
  raw_quantity : option Z;
  raw_transaction_date : option string
}.

(** A sales row whose transaction_date column holds timestamps. *)
Record sale := mkSale {
  transaction_id : option Z;
  sale_product_id : option Z;
  customer_id : option Z;
  quantity : option Z;
  transaction_date : option date
}.

(** [sales_df['transaction_date'] = pd.to_datetime(..., errors='coerce')]. *)
Definition parse_dates (df : list raw_sale) : list sale :=
  (λ r, {| transaction_id := raw_transaction_id r;
           sale_product_id := raw_product_id r;
           customer_id := raw_customer_id r;
           quantity := raw_quantity r;
           transaction_date := to_datetime_cell (raw_transaction_date r) |})
  <$> df.

(** [lambda x: max(x, 1) if x > 0 else 1]; a comparison with NaN is false. *)
Definition repair_quantity (x : option Z) : Z :=
  match x with
  | Some q => if 0 <? q then Z.max q 1 else 1
  | None => 1
  end.

End Rows.

(** ** load_data.py *)
Module LoadData.
Import Frame Rows.

Definition valid_categories : list string :=
  ["Electronics"; "Clothing"; "Books"; "Food"].

(** [x if x in valid_categories else "Other"]; NaN is in no set of texts. *)
Definition clean_category (c : option string) : string :=
  match c with
  | Some x => if bool_decide (x ∈ valid_categories) then x else "Other"
  | None => "Other"
  end.

(** [Series.clip(lower=0)] on one value. *)
Definition clip_lower_0 (q : Q) : Q := if Qle_bool 0 q then q else 0%Q.

(** [pd.to_numeric(price, errors='coerce')], then [.fillna(0).clip(lower=0)]:
    the column becomes float64 with no NaN left. *)
Definition clean_price (c : num_cell) : num_cell :=
  NNum (clip_lower_0 (default 0%Q (to_numeric c))).

Definition clean_products (df : list product) : list product :=
  (λ p, {| product_id := product_id p;
           product_name := Some (default "Unknown" (product_name p));
           category := Some (clean_category (category p));
           price := clean_price (price p) |})
  <$> df.

(** The sentinel [datetime(2000, 1, 1).date()]. *)
Definition default_date : date := mkDate 2000 1 1.

(** The body of the outer [clean_sales]; the inner function of the same name
    holds one logging call and is never called. *)
Definition clean_sales (df : list raw_sale) : list sale :=
  (λ r, {| transaction_id := raw_transaction_id r;
           sale_product_id := Some (default (-1) (raw_product_id r));
           customer_id := Some (default (-1) (raw_customer_id r));
           quantity := Some (repair_quantity (raw_quantity r));
           transaction_date :=
             Some (default default_date
                     (to_datetime_cell (raw_transaction_date r))) |})
  <$> df.

End LoadData.

(** ** etl_pipeline_with_validations.py *)
Module Validation.
Import Frame Rows.

(** A validated sales row: the sales columns plus price and revenue. *)
Record validated_sale := mkValidatedSale {
  v_sale : sale;
  v_price : option Q;
  v_revenue : option Q
}.

(** [df.dropna(subset=['product_id', 'customer_id', 'transaction_date'])]. *)
Definition dropna_critical (df : list sale) : list sale :=
  filter (λ r, is_Some (sale_product_id r) ∧ is_Some (customer_id r)
               ∧ is_Some (transaction_date r)) df.

(** [df['quantity'] = df['quantity'].apply(lambda x: ...)], on one row. *)
Definition repair_row (r : sale) : sale :=
  {| transaction_id := transaction_id r;
     sale_product_id := sale_product_id r;
     customer_id := customer_id r;
     quantity := Some (repair_quantity (quantity r));
     transaction_date := transaction_date r |}.

Definition repair_quantities (df : list sale) : list sale :=
  repair_row <$> df.

(** [Series.isin(values)] on one element. *)
Definition isin (x : option Z) (values : list Z) : Prop :=
  ∃ z, x = Some z ∧ z ∈ values.

#[global] Instance isin_dec x values : Decision (isin x values).
Proof.
  destruct x as [z|].
  - destruct (decide (z ∈ values)) as [Hin|Hout].
    + left. by exists z.
    + right. intros (z' & [= ->] & Hin). done.
  - right. by intros (z' & [=] & _).
Defined.

(** [df[df['product_id'].isin(...) & df['customer_id'].isin(...)]]. *)
Definition keep_referenced (valid_product_ids valid_customer_ids : list Z)
    (df : list sale) : list sale :=
  filter (λ r, isin (sale_product_id r) valid_product_ids
               ∧ isin (customer_id r) valid_customer_ids) df.

(** [df['price'] = df['product_id'].map(product_prices)] and
    [df['revenue'] = df['quantity'] * df['price']]. *)
Definition add_price_revenue (product_prices : gmap Z Q) (r : sale)
    : validated_sale :=
  let p := sale_product_id r ≫= (product_prices !!.) in
  {| v_sale := r;
     v_price := p;
     v_revenue := q ← quantity r; x ← p; Some (inject_Z q * x)%Q |}.

Definition validate_sales_data (df : list sale)
    (valid_product_ids valid_customer_ids : list Z)
    (product_prices : gmap Z Q) : list validated_sale :=
  add_price_revenue product_prices
  <$> keep_referenced valid_product_ids valid_customer_ids
        (repair_quantities (dropna_critical df)).

End Validation.

(** ** incremental_pipeline.py *)
Module Incremental.
Import Frame Rows.

(** The database the pipeline writes: the sales table, appended to, and the
    watermark table etl_state(id PRIMARY KEY, last_processed_date), keyed by
    its primary key. *)
Record db := mkDb {
  sales_table : list sale;
  etl_state : gmap Z date
}.

(** A connection of the client library (SQLAlchemy 2.x): the committed
    database, and the database as the open transaction sees it. *)
Record connection := mkConnection {
  committed : db;
  session : db
}.

(** [engine.connect()]. *)
Definition engine_connect (s : db) : connection :=
  {| committed := s; session := s |}.

(** [conn.execute(statement)]: the statement acts inside the transaction. *)
Definition execute (statement : db → db) (c : connection) : connection :=
  {| committed := committed c; session := statement (session c) |}.

(** Leaving [with engine.connect() as conn] with no [conn.commit()]: the
    transaction is rolled back, the committed database is what remains. *)
Definition close (c : connection) : db := committed c.

(** [SELECT last_processed_date FROM etl_state LIMIT 1]: the only row the
    code ever writes has id 1; no row gives None.  The value read back from
    the DATE column is a [datetime.date]. *)
Definition get_last_processed_date (s : db) : option date :=
  etl_state s !! 1.

(** [INSERT INTO etl_state (id, last_processed_date) VALUES (1, new_date)
     ON CONFLICT (id) DO UPDATE SET last_processed_date = new_date]. *)
Definition upsert_statement (new_date : date) (s : db) : db :=
  {| sales_table := sales_table s;
     etl_state := <[1 := new_date]> (etl_state s) |}.

(** [str(new_date)] of a [datetime.date]. *)
Definition isoformat (d : date) : string :=
  zero_pad 4 (year d) +:+ "-" +:+ zero_pad 2 (month d) +:+ "-"
  +:+ zero_pad 2 (day d).

(** [update_last_processed_date]: the upsert is executed on
    [engine.connect()] and the block is left without a commit; the function
    then logs its one line.  The result is the database after the call and
    the line logged. *)
Definition update_last_processed_date (new_date : date) (s : db)
    : db * string :=
  (close (execute (upsert_statement new_date) (engine_connect s)),
   "Updated last processed date to " +:+ isoformat new_date +:+ ".").

(** [sales_df.dropna(subset=['transaction_date'])]. *)
Definition dropna_date (df : list sale) : list sale :=
  filter (λ r, is_Some (transaction_date r)) df.

(** The right operand of a comparison with a datetime64 column. *)
Inductive operand :=
  | Timestamp (t : date)
  | DateObject (d : date).

(** [transaction_date > t] on one row, for a timestamp [t]; NaT compares
    false. *)
Definition is_after (t : date) (r : sale) : bool :=
  match transaction_date r with
  | Some d => date_ltb t d
  | None => false
  end.

(** [df[df['transaction_date'] > other]] (pandas 2.x): the rows later than a
    timestamp; against a [datetime.date] the comparison raises TypeError
    (invalid comparison between dtype=datetime64[ns] and date), here None. *)
Definition rows_after (other : operand) (df : list sale)
    : option (list sale) :=
  match other with
  | Timestamp t => Some (filter (λ r, is_after t r) df)
  | DateObject _ => None
  end.

(** [Series.max()] of the date column, NaT skipped; None on no date at all. *)
Fixpoint max_date (df : list sale) : option date :=
  match df with
  | [] => None
  | r :: df' =>
      match transaction_date r, max_date df' with
      | Some d, Some m => Some (date_max d m)
      | Some d, None => Some d
      | None, m => m
      end
  end.

(** [new_sales_df]: every dated row when no watermark is stored ([if
    last_processed_date] is false on None), else the rows the comparison with
    the stored [datetime.date] selects. *)
Definition new_sales (csv : list raw_sale) (s : db) : option (list sale) :=
  let sales_df := dropna_date (parse_dates csv) in
  match get_last_processed_date s with
  | Some w => rows_after (DateObject w) sales_df
  | None => Some sales_df
  end.

(** [new_sales_df.to_sql('sales', con=engine, if_exists='append')]: one
    transaction that pandas commits itself; [accepts table rows] tells
    whether the database takes these rows after those of the table (it takes
    any rows when the table has no constraint, and refuses, for one, a
    repeated transaction_id when transaction_id is a primary key).  A refusal
    raises, here None. *)
Definition to_sql_append (accepts : list sale → list sale → bool)
    (rows : list sale) (s : db) : option db :=
  if accepts (sales_table s) rows
  then Some {| sales_table := sales_table s ++ rows;
               etl_state := etl_state s |}
  else None.

(** [process_sales_data], with the file's contents for the file name.  Any
    exception is caught by the [except] of the function, which logs it: the
    database is then as the last committed step left it. *)
Definition process_sales_data (accepts : list sale → list sale → bool)
    (csv : list raw_sale) (s : db) : db :=
  match new_sales csv s with
  | None => s
  | Some [] => s
  | Some new_sales_df =>
      match to_sql_append accepts new_sales_df s with
      | None => s
      | Some appended =>
          match max_date new_sales_df with
          | Some d => (update_last_processed_date d appended).1
          | None => appended
          end
      end
  end.

(** Successive runs of the pipeline, one input file per run. *)
Definition runs (accepts : list sale → list sale → bool)
    (files : list (list raw_sale)) (s : db) : db :=
  foldl (λ st csv, process_sales_data accepts csv st) s files.

End Incremental.

(** ** etl_data_enrichment.py and etl_pipeline_api_extended.py

    [fetch_product_metadata] and [enrich_product_data] are the same text in
    both files; the transforms are in etl_data_enrichment.py only. *)
Module Enrichment.
Import Frame Rows.

(** *** Metadata fetcher *)

(** One object of a page of the metadata API: for each of the five keys the
    code reads, the value under the key, or None when the object has no such
    key ([Some CNone] is a key holding null). *)
Record api_record := mkApiRecord {
  j_id : option cell;
  j_description : option cell;
  j_rating : option num_cell;
  j_availability_status : option cell;
  j_product_id : option cell
}.

(** Outcome of [requests.get(f"{api_url}?page={page}", timeout=10)]: a
    response with its status code and decoded body, or a RequestException. *)
Inductive response :=
  | Response (status_code : Z) (json : list api_record)
  | RequestException.

(** The loop [while page <= max_pages]: [remaining] counts the pages from
    [page] up to [max_pages], and each turn either breaks or moves on to the
    next page. *)
Fixpoint fetch_loop (api : Z → response) (remaining : nat) (page : Z)
    (product_metadata : list api_record) : list api_record :=
  match remaining with
  | O => product_metadata
  | S remaining' =>
      match api page with
      | Response status_code data =>
          if status_code =? 200 then
            match data with
            | [] => product_metadata
            | _ => fetch_loop api remaining' (page + 1)
                     (product_metadata ++ data)
            end
          else product_metadata
      | RequestException => product_metadata
      end
  end.

(** A row of the metadata frame. *)
Record meta_row := mkMetaRow {
  meta_id : cell;
  meta_product_id_api : option string;
  meta_description : option string;
  meta_rating : option Q;
  meta_availability_status : option string
}.

(** The metadata frame: column labels and rows. *)
Record metadata := mkMetadata {
  columns : list string;
  rows : list meta_row
}.

(** [pd.DataFrame(columns=[...])], returned when nothing was fetched. *)
Definition empty_metadata : metadata :=
  {| columns := ["id"; "description"; "rating"; "availability_status";
                 "product_id"];
     rows := [] |}.

(** The type normalisation of the fetcher, per record.  In the frame
    [pd.DataFrame(product_metadata)] an object without a key has NaN in the
    column of that key. *)
Definition normalize_record (r : api_record) : meta_row :=
  {| meta_id := CStr (strip (astype_str (default CNaN (j_id r))));
     meta_product_id_api := Some (astype_str (default CNaN (j_product_id r)));
     meta_description := Some (astype_str (default CNaN (j_description r)));
     meta_rating :=
       Some (default 0%Q (to_numeric (default NNaN (j_rating r))));
     meta_availability_status :=
       Some (astype_str (default CNaN (j_availability_status r))) |}.

(** The frame [pd.DataFrame(product_metadata)] has the column of a key when
    some object has the key. *)
Definition has_column {A} (field : api_record → option A)
    (product_metadata : list api_record) : Prop :=
  Exists (λ r, is_Some (field r)) product_metadata.

(** The five column reads of the normalisation all find their column. *)
Definition has_columns (product_metadata : list api_record) : Prop :=
  has_column j_id product_metadata
  ∧ has_column j_product_id product_metadata
  ∧ has_column j_description product_metadata
  ∧ has_column j_availability_status product_metadata
  ∧ has_column j_rating product_metadata.

#[global] Instance has_columns_dec product_metadata :
  Decision (has_columns product_metadata).
Proof. unfold has_columns, has_column. apply _. Defined.

(** [fetch_product_metadata(api_url, max_pages)], with the API as a function
    from page numbers to outcomes.  The columns of a fetched frame are the
    keys of the objects, product_id renamed to product_id_api.  The
    normalisation runs after the loop, outside its [try]: reading a column
    that no fetched object provides raises KeyError, here None. *)
Definition fetch_product_metadata (api : Z → response) (max_pages : Z)
    : option metadata :=
  match fetch_loop api (Z.to_nat max_pages) 1 [] with
  | [] => Some empty_metadata
  | product_metadata =>
      if decide (has_columns product_metadata) then
        Some {| columns := ["id"; "description"; "rating";
                            "availability_status"; "product_id_api"];
                rows := normalize_record <$> product_metadata |}
      else None
  end.

(** *** Enricher *)

(** A products row with the enrichment columns. *)
Record enriched_product := mkEnriched {
  e_product : product;
  e_product_id_api : option string;
  e_description : option string;
  e_rating : option Q;
  e_availability_status : option string
}.

(** The branch on [metadata_df.empty]: constant columns, no merge. *)
Definition with_defaults (p : product) : enriched_product :=
  {| e_product := p;
     e_product_id_api := None;
     e_description := Some "No description available";
     e_rating := Some 0%Q;
     e_availability_status := Some "Unknown" |}.

(** [products_df['product_id'].astype(str).str.strip()]. *)
Definition normalize_product (p : product) : product :=
  {| product_id := CStr (normalize_key (product_id p));
     product_name := product_name p;
     category := category p;
     price := price p |}.

(** [metadata_df['id'].astype(str).str.strip()]. *)
Definition normalize_meta (m : meta_row) : meta_row :=
  {| meta_id := CStr (normalize_key (meta_id m));
     meta_product_id_api := meta_product_id_api m;
     meta_description := meta_description m;
     meta_rating := meta_rating m;
     meta_availability_status := meta_availability_status m |}.

(** The metadata rows whose id equals the key of [p], in frame order. *)
Definition matches (p : product) (metas : list meta_row) : list meta_row :=
  filter (λ m, meta_id m = product_id p) metas.

Definition joined (p : product) (m : meta_row) : enriched_product :=
  {| e_product := p;
     e_product_id_api := meta_product_id_api m;
     e_description := meta_description m;
     e_rating := meta_rating m;
     e_availability_status := meta_availability_status m |}.

Definition unmatched (p : product) : enriched_product :=
  {| e_product := p;
     e_product_id_api := None;
     e_description := None;
     e_rating := None;
     e_availability_status := None |}.

(** [pd.merge(products_df, metadata_df, left_on='product_id', right_on='id',
    how='left')]: every left row once per right row of equal key, in left
    order, and once with nulls when no right row has its key. *)
Definition merge_left (products : list product) (metas : list meta_row)
    : list enriched_product :=
  p ← products;
  match matches p metas with
  | [] => [unmatched p]
  | ms => joined p <$> ms
  end.

(** The three [fillna] calls after the merge. *)
Definition fill_defaults (e : enriched_product) : enriched_product :=
  {| e_product := e_product e;
     e_product_id_api := e_product_id_api e;
     e_description :=
       Some (default "No description available" (e_description e));
     e_rating := Some (default 0%Q (e_rating e));
     e_availability_status :=
       Some (default "Unknown" (e_availability_status e)) |}.

Definition enrich_product_data (products_df : list product)
    (metadata_df : metadata) : list enriched_product :=
  match rows metadata_df with
  | [] => with_defaults <$> products_df
  | metas =>
      fill_defaults
      <$> merge_left (normalize_product <$> products_df)
            (normalize_meta <$> metas)
  end.

(** *** Transformer (etl_data_enrichment.py) *)

Definition lower_char (a : ascii) : ascii :=
  let n := N_of_ascii a in
  if ((65 <=? n) && (n <=? 90))%N then ascii_of_N (n + 32) else a.

Definition upper_char (a : ascii) : ascii :=
  let n := N_of_ascii a in
  if ((97 <=? n) && (n <=? 122))%N then ascii_of_N (n - 32) else a.

(** [str.lower()] then [str.capitalize()], on ASCII letters. *)
Definition lower_capitalize (s : string) : string :=
  match lower_char <$> String.list_ascii_of_string s with
  | [] => ""
  | a :: l => String.string_of_list_ascii (upper_char a :: l)
  end.

(** [pd.to_numeric(price, errors='coerce').abs()]: NaN stays NaN. *)
Definition abs_price (c : num_cell) : num_cell :=
  match to_numeric c with
  | Some q => NNum (Qabs q)
  | None => NNaN
  end.

(** [sales_df.groupby('product_id')['quantity'].sum()] over the normalised
    text keys: a series indexed by key; a missing quantity adds nothing. *)
Definition total_sales_quantity (sales_df : list raw_sale) : gmap string Z :=
  foldr (λ r total,
           let k := normalize_int_key (raw_product_id r) in
           <[k := default 0 (total !! k) + default 0 (raw_quantity r)]> total)
        ∅ sales_df.

(** [Series.max()]: None (NaN) on the empty series. *)
Definition series_max (total : gmap string Z) : option Z :=
  foldr (λ v acc, Some (from_option (Z.max v) v acc)) None
        ((map_to_list total).*2).

(** The order of the index of a grouped series: the keys sorted as texts. *)
Definition index_le (a b : string * Z) : Prop := String.leb a.1 b.1.

(** The values of the series in the order of its index. *)
Definition sorted_values (total : gmap string Z) : list Z :=
  (merge_sort index_le (map_to_list total)).*2.

(** [total_sales_quantity.get(x, 0)] on a series with a text index (pandas
    2.x).  A text key is looked up as a label.  An integer key (the
    product_id of a products frame that was not merged with metadata) is read
    as a position, from the end when negative, and gives the default when the
    position is out of range.  A missing key matches nothing. *)
Definition series_get (total : gmap string Z) (x : cell) : Z :=
  match x with
  | CStr k => default 0 (total !! k)
  | CInt z =>
      let values := sorted_values total in
      let n := Z.of_nat (length values) in
      if (- n <=? z) && (z <? n)
      then default 0 (values !! Z.to_nat (z `mod` n))
      else 0
  | _ => 0
  end.

(** A products row with its popularity score. *)
Record scored_product := mkScored {
  s_row : enriched_product;
  popularity_score : Q
}.

Definition transform_product_columns (e : enriched_product) : enriched_product :=
  {| e_product :=
       {| product_id := product_id (e_product e);
          product_name := product_name (e_product e);
          category := lower_capitalize <$> category (e_product e);
          price := abs_price (price (e_product e)) |};
     e_product_id_api := e_product_id_api e;
     e_description := e_description e;
     e_rating := e_rating e;
     e_availability_status := e_availability_status e |}.

(** [(total_sales_quantity.get(x, 0) / max_sales_quantity) * 100]. *)
Definition score (total : gmap string Z) (max_sales_quantity : Z) (x : cell)
    : Q :=
  (inject_Z (series_get total x) / inject_Z max_sales_quantity * 100)%Q.

(** [transform_products]; the comparison [max_sales_quantity > 0] is false on
    NaN, the maximum of an empty series. *)
Definition transform_products (products_df : list enriched_product)
    (sales_df : list raw_sale) : list scored_product :=
  let total := total_sales_quantity sales_df in
  let positive_max :=
    match series_max total with
    | Some m => if 0 <? m then Some m else None
    | None => None
    end in
  (λ e, let e' := transform_product_columns e in
        {| s_row := e';
           popularity_score :=
             match positive_max with
             | Some m => score total m (product_id (e_product e'))
             | None => 0%Q
             end |})
  <$> products_df.

(** A row of the transformed sales frame. *)
Record transformed_sale := mkTransformedSale {
  ts_transaction_id : option Z;
  ts_product_id : string;
  ts_customer_id : option Z;
  ts_quantity : option Z;
  ts_price : option Q;
  ts_total_sales_value : option Q;
  ts_transaction_date : option date;
  ts_purchase_month : option string
}.

(** The products rows whose normalised key is that of the sales row [r]. *)
Definition priced_by (products_df : list scored_product) (r : raw_sale)
    : list product :=
  filter (λ p, normalize_key (product_id p)
               = normalize_int_key (raw_product_id r))
         (e_product ∘ s_row <$> products_df).

(** [sales_df.merge(products_df[['product_id', 'price']], on='product_id',
    how='left')]: a sales row once per products row of equal key with that
    row's price, and once with a NaN price when there is none. *)
Definition merge_price (sales_df : list raw_sale)
    (products_df : list scored_product) : list (raw_sale * num_cell) :=
  r ← sales_df;
  match priced_by products_df r with
  | [] => [(r, NNaN)]
  | ps => (λ p, (r, price p)) <$> ps
  end.

(** [sales_df.dropna(subset=['price'])] on the numeric price column. *)
Definition dropna_price (df : list (raw_sale * option Q))
    : list (raw_sale * option Q) :=
  filter (λ rp, is_Some rp.2) df.

(** The derived columns: total_sales_value, the parsed transaction_date and
    purchase_month ([.dt.strftime] leaves NaT as a missing label). *)
Definition derive_sale (rp : raw_sale * option Q) : transformed_sale :=
  let d := to_datetime_cell (raw_transaction_date rp.1) in
  {| ts_transaction_id := raw_transaction_id rp.1;
     ts_product_id := normalize_int_key (raw_product_id rp.1);
     ts_customer_id := raw_customer_id rp.1;
     ts_quantity := raw_quantity rp.1;
     ts_price := rp.2;
     ts_total_sales_value :=
       q ← raw_quantity rp.1; p ← rp.2; Some (inject_Z q * p)%Q;
     ts_transaction_date := d;
     ts_purchase_month := strftime_Ym <$> d |}.

(** [transform_sales]: merge, [pd.to_numeric] on price, [dropna] on price,
    then the derived columns.  The early return on an empty merge result
    yields the same (empty) list of rows as the flow below. *)
Definition transform_sales (sales_df : list raw_sale)
    (products_df : list scored_product) : list transformed_sale :=
  derive_sale
  <$> dropna_price (prod_map id to_numeric <$> merge_price sales_df products_df).

End Enrichment.

(** ** Duplicates and order, as pandas treats them *)
Module Dedup.

Section keyed.
Context {A K : Type} `{EqDecision K} (key : A → K).

(** [drop_duplicates(subset=key, keep='first')]: a row is kept unless its
    key was seen on an earlier row. *)
Fixpoint keep_first (seen : list K) (l : list A) : list A :=
  match l with
  | [] => []
  | x :: l' =>
      if decide (key x ∈ seen) then keep_first seen l'
      else x :: keep_first (key x :: seen) l'
  end.

Definition drop_duplicates_first (l : list A) : list A := keep_first [] l.

(** [drop_duplicates(subset=key, keep='last')]: a row is kept unless its
    key comes again on a later row. *)
Fixpoint drop_duplicates_last (l : list A) : list A :=
  match l with
  | [] => []
  | x :: l' =>
      if decide (key x ∈ key <$> l') then drop_duplicates_last l'
      else x :: drop_duplicates_last l'
  end.
End keyed.

(** The ascending order of [sort_values] on a nullable integer column: NaN
    comes last. *)
Definition id_le (a b : option Z) : Prop :=
  match a, b with
  | Some x, Some y => x ≤ y
  | _, None => True
  | None, Some _ => False
  end.

#[global] Instance id_le_dec a b : Decision (id_le a b).
Proof. destruct a, b; simpl; apply _. Defined.

End Dedup.

(** ** customers.csv *)
Module Customers.

(** customers.csv: customer_id, name, email, country. *)
Record customer := mkCustomer {
  customer_id : option Z;
  name : option string;
  email : option string;
  country : option string
}.

(** ["c" in x] for a one-character text c. *)
Definition contains_char (c : ascii) (s : string) : bool :=
  bool_decide (c ∈ String.list_ascii_of_string s).

End Customers.

(** ** load_data.py: customers and the pipeline *)
Module LoadPipeline.
Import Frame Rows Customers.

(** [x if "@" in x and "." in x else "invalid@example.com"]. *)
Definition clean_email (x : string) : string :=
  if contains_char "@" x && contains_char "." x then x
  else "invalid@example.com".

(** [clean_customers]: duplicates of customer_id dropped, the first kept;
    missing countries filled; emails checked.  Both [.str.contains] and the
    [in] tests raise on a missing email, so the function fails (None) when a
    remaining row has none. *)
Definition clean_customers (df : list customer) : option (list customer) :=
  let df1 := Dedup.drop_duplicates_first customer_id df in
  mapM (λ c, x ← email c;
             Some {| customer_id := customer_id c;
                     name := name c;
                     email := Some (clean_email x);
                     country := Some (default "Unknown" (country c)) |})
       df1.

(** The three tables [load_to_db] writes. *)
Record tables := mkTables {
  products_table : list product;
  customers_table : list customer;
  sales_table : list sale
}.

Inductive table_name := Products | Customers | Sales.

Definition frame_of (t : table_name) : Type :=
  match t with
  | Products => list product
  | Customers => list customer
  | Sales => list sale
  end.

Definition replace_table (t : table_name) : frame_of t → tables → tables :=
  match t with
  | Products => λ df db,
      {| products_table := df;
         customers_table := customers_table db;
         sales_table := sales_table db |}
  | Customers => λ df db,
      {| products_table := products_table db;
         customers_table := df;
         sales_table := sales_table db |}
  | Sales => λ df db,
      {| products_table := products_table db;
         customers_table := customers_table db;
         sales_table := df |}
  end.

(** [load_to_db]: [df.to_sql(table_name, con=engine, if_exists='replace')]
    drops the table and writes the frame in its place, in one transaction.
    The database may refuse (a table that another one references cannot be
    dropped, a frame may not fit): then the call raises (None) and the table
    is as it was.  [refused] tells which loads of the run the database
    refuses. *)
Definition load_to_db (refused : table_name → bool) (t : table_name)
    (df : frame_of t) (db : tables) : option tables :=
  if refused t then None else Some (replace_table t df db).

(** [etl_pipeline] after the extraction: the three frames are cleaned first,
    and an exception while cleaning returns before any table is written;
    then the three tables are loaded one after the other, and the first load
    that raises ends the run, the loads before it staying in place. *)
Definition etl_pipeline (refused : table_name → bool)
    (products : list product) (customers : list customer)
    (sales : list raw_sale) (db : tables) : tables :=
  let products' := LoadData.clean_products products in
  match clean_customers customers with
  | None => db
  | Some customers' =>
      let sales' := LoadData.clean_sales sales in
      match load_to_db refused Products products' db with
      | None => db
      | Some db1 =>
          match load_to_db refused Customers customers' db1 with
          | None => db1
          | Some db2 =>
              match load_to_db refused Sales sales' db2 with
              | None => db2
              | Some db3 => db3
              end
          end
      end
  end.

End LoadPipeline.

(** ** etl_pipeline_with_validations.py: [load_sales_data] *)
Module ValidatedLoad.
Import Frame Rows.

(** The tables the load reads, products(product_id, price) and
    customers(customer_id), and the sales table it appends to. *)
Record db := mkDb {
  products : list (Z * Q);
  customers : list Z;
  sales : list sale
}.

(** [products_df.set_index('product_id')['price'].to_dict()]: on a repeated
    product_id the later row wins. *)
Definition to_dict (products_df : list (Z * Q)) : gmap Z Q :=
  foldl (λ d row, <[row.1 := row.2]> d) ∅ products_df.

(** The frame [load_sales_data] appends: the validated rows without their
    price and revenue columns. *)
Definition validated_rows (csv : list raw_sale) (s : db) : list sale :=
  Validation.v_sale
  <$> Validation.validate_sales_data (parse_dates csv)
        (fst <$> products s) (customers s) (to_dict (products s)).

(** [to_sql('sales', if_exists='append')]: the rows are added to the table,
    unless the database refuses them (a transaction_id already in a table
    that declares it a key, say); then the call raises (None) and nothing is
    added.  [accepts], given the rows of the table and the rows offered,
    tells whether the database takes them. *)
Definition to_sql_append (accepts : list sale → list sale → bool)
    (rows : list sale) (s : db) : option db :=
  if accepts (sales s) rows
  then Some {| products := products s;
               customers := customers s;
               sales := sales s ++ rows |}
  else None.

(** [load_sales_data], with the file's contents for the file name and the
    database reachable: an exception of the append is caught and logged. *)
Definition load_sales_data (accepts : list sale → list sale → bool)
    (csv : list raw_sale) (s : db) : db :=
  match to_sql_append accepts (validated_rows csv s) s with
  | Some s' => s'
  | None => s
  end.

End ValidatedLoad.

(** ** etl_data_enrichment.py: [transform_customers] and [main] *)
Module CustomerTransform.
Import Frame Rows Customers.

(** [text.split(' ', 1)]: the text before the first blank and, when there is
    a blank, the text after it. *)
Fixpoint split_blank (l : list ascii) : list ascii * option (list ascii) :=
  match l with
  | [] => ([], None)
  | a :: l' =>
      if Ascii.eqb a " "%char then ([], Some l')
      else let '(first, rest) := split_blank l' in (a :: first, rest)
  end.

Definition split_name (n : string) : string * option string :=
  let '(first, rest) := split_blank (String.list_ascii_of_string n) in
  (String.string_of_list_ascii first, String.string_of_list_ascii <$> rest).

(** A customers row with the three derived columns. *)
Record transformed_customer := mkTransformedCustomer {
  tc_customer : customer;
  first_name : option string;
  last_name : option string;
  buyer_category : string
}.

(** [sales_df.groupby('customer_id').size().get(x, 0)]: the number of sales
    rows of customer [x]; rows without a customer_id are in no group. *)
Definition transaction_count (sales_df : list Enrichment.transformed_sale)
    (x : option Z) : nat :=
  match x with
  | Some z =>
      length (filter (λ t, Enrichment.ts_customer_id t = Some z) sales_df)
  | None => 0
  end.

Definition categorize (count : nat) : string :=
  if bool_decide (10 < count)%nat then "Frequent Buyer"
  else if bool_decide (5 ≤ count ≤ 10)%nat then "Occasional Buyer"
  else "Rare Buyer".

Definition add_columns (sales_df : list Enrichment.transformed_sale)
    (c : customer) : transformed_customer :=
  let parts := split_name <$> name c in
  {| tc_customer := c;
     first_name := fst <$> parts;
     last_name := parts ≫= snd;
     buyer_category := categorize (transaction_count sales_df (customer_id c)) |}.

(** Some name splits in two: [str.split(' ', n=1, expand=True)] then has the
    two columns the assignment to first_name and last_name needs. *)
Definition splits_in_two (c : customer) : Prop :=
  ∃ n, name c = Some n ∧ Customers.contains_char " " n = true.

#[global] Instance splits_in_two_dec c : Decision (splits_in_two c).
Proof.
  destruct (name c) as [n|] eqn:Hn.
  - destruct (Customers.contains_char " " n) eqn:Hc.
    + left. by exists n.
    + right. intros (n' & Hn' & Hc'). congruence.
  - right. intros (n' & Hn' & _). congruence.
Defined.

(** The result of [transform_customers]: the transformed frame, or, from the
    [except] branch, the frame it was given. *)
Inductive result :=
  | Transformed (rows : list transformed_customer)
  | Unchanged (rows : list customer).

(** [transform_customers].  When no name holds a blank the split yields one
    column, the assignment to two columns raises, and the [except] branch
    returns the input.  [sort_values('customer_id')] is read as a stable
    sort. *)
Definition transform_customers (customers_df : list customer)
    (sales_df : list Enrichment.transformed_sale) : result :=
  if decide (Exists splits_in_two customers_df) then
    Transformed
      (Dedup.drop_duplicates_last (email ∘ tc_customer)
         (merge_sort (λ a b, Dedup.id_le (customer_id (tc_customer a))
                                         (customer_id (tc_customer b)))
            (add_columns sales_df <$> customers_df)))
  else Unchanged customers_df.

End CustomerTransform.

(** * Vocabulary of the statements *)

Import Frame Rows.

(** A sales row that passes every filter of [validate_sales_data]: the three
    critical fields are present and both keys are known.  The quantity plays
    no part. *)
Definition accepted (valid_product_ids valid_customer_ids : list Z)
    (r : sale) : Prop :=
  Validation.isin (sale_product_id r) valid_product_ids
  ∧ Validation.isin (customer_id r) valid_customer_ids
  ∧ is_Some (transaction_date r).

#[global] Instance accepted_dec vp vc r : Decision (accepted vp vc r).
Proof. unfold accepted. apply _. Defined.

(** A quantity column entry that is a number, at least one. *)
Definition at_least_one (x : option Z) : Prop := ∃ q, x = Some q ∧ 1 ≤ q.

(** The number of metadata rows whose normalised id is the normalised
    product_id of [p]. *)
Definition match_count (metas : list Enrichment.meta_row) (p : product) : nat :=
  length (filter (λ m, normalize_key (Enrichment.meta_id m)
                       = normalize_key (product_id p)) metas).

(** An outcome that lets the fetch loop go on: status 200 with a non-empty
    page [data]. *)
Definition serves (r : Enrichment.response) (data : list Enrichment.api_record)
    : Prop :=
  r = Enrichment.Response 200 data ∧ data ≠ [].

(** An outcome that ends the fetch loop: an empty page, a status other than
    200, or a failed request. *)
Definition stops (r : Enrichment.response) : Prop :=
  match r with
  | Enrichment.Response status_code data => status_code ≠ 200 ∨ data = []
  | Enrichment.RequestException => True
  end.

(** [pages] are the pages the loop fetches when it starts at page [first]
    with [remaining] pages to go: each is served, and the page after the last
    one, if still within the ceiling, stops the loop. *)
Definition fetched (api : Z → Enrichment.response) (first : Z)
    (remaining : nat) (pages : list (list Enrichment.api_record)) : Prop :=
  (length pages ≤ remaining)%nat
  ∧ (∀ i data, pages !! i = Some data → serves (api (first + Z.of_nat i)) data)
  ∧ ((length pages < remaining)%nat
     → stops (api (first + Z.of_nat (length pages)))).

(** The numeric prices the join with the products frame gives the sales row
    [r]: one per products row of equal normalised key whose price is a
    number, in frame order. *)
Definition resolved_prices (products_df : list Enrichment.scored_product)
    (r : raw_sale) : list Q :=
  omap (to_numeric ∘ price) (Enrichment.priced_by products_df r).

(** The normalised product keys of a sales frame. *)
Definition sales_keys (sales_df : list raw_sale) : list string :=
  normalize_int_key ∘ raw_product_id <$> sales_df.

(** The sum of the quantities sold under the key [k] (a missing quantity
    counts for nothing). *)
Definition summed_quantity (sales_df : list raw_sale) (k : string) : Z :=
  foldr Z.add 0
    (default 0 ∘ raw_quantity
     <$> filter (λ r, normalize_int_key (raw_product_id r) = k) sales_df).


(** The row [c] is the first row of [df] with its key. *)
Definition first_of_key {A K} (key : A → K) (df : list A) (c : A) : Prop :=
  ∃ l1 l2, df = l1 ++ c :: l2 ∧ Forall (λ z, key z ≠ key c) l1.

(** An email text that passes the check of [clean_customers]. *)
Definition has_at_and_dot (e : string) : Prop :=
  Customers.contains_char "@" e = true ∧ Customers.contains_char "." e = true.

(** A sales row whose two keys exist in the products and customers tables. *)
Definition references (s : ValidatedLoad.db) (r : sale) : Prop :=
  Validation.isin (sale_product_id r) (fst <$> ValidatedLoad.products s)
  ∧ Validation.isin (customer_id r) (ValidatedLoad.customers s).

(** The normalised join keys of a products row and of a metadata row. *)
Definition product_key (p : product) : string := normalize_key (product_id p).
Definition meta_key (m : Enrichment.meta_row) : string :=
  normalize_key (Enrichment.meta_id m).

(** The order [sort_values('customer_id')] puts transformed rows in. *)
Definition by_customer_id (a b : CustomerTransform.transformed_customer)
    : Prop :=
  Dedup.id_le (Customers.customer_id (CustomerTransform.tc_customer a))
              (Customers.customer_id (CustomerTransform.tc_customer b)).

#[global] Instance by_customer_id_dec a b : Decision (by_customer_id a b).
Proof. unfold by_customer_id. apply _. Defined.

(** * Properties *)

(** ** Lists *)

Lemma filter_fmap {A B} (f : A → B) (P : B → Prop) `{!∀ y, Decision (P y)}
    (l : list A) :
  filter P (f <$> l) = f <$> filter (λ x, P (f x)) l.
Proof.
  induction l as [|x l IH]; [done|]. csimpl.
  rewrite !filter_cons. destruct (decide (P (f x))); csimpl; by rewrite IH.
Qed.

Lemma filter_none {A} (P : A → Prop) `{!∀ x, Decision (P x)} (l : list A) :
  (∀ x, x ∈ l → ¬ P x) → filter P l = [].
Proof.
  induction l as [|x l IH]; [done|]. intros Hl.
  rewrite filter_cons_False; [|apply Hl; left].
  apply IH. intros y Hy. apply Hl. by right.
Qed.

Lemma Forall2_elem_r {A B} (P : A → B → Prop) (l : list A) (k : list B)
    (y : B) :
  Forall2 P l k → y ∈ k → ∃ x, x ∈ l ∧ P x y.
Proof.
  induction 1 as [|x y' l k HP _ IH]; [by intros ?%elem_of_nil|].
  intros [->|Hy]%elem_of_cons.
  - exists x. split; [left|done].
  - destruct (IH Hy) as (x' & Hx' & HP'). exists x'. split; [by right|done].
Qed.

Lemma sum_list_cons_fmap {A} (f : A → nat) (x : A) (l : list A) :
  sum_list (f <$> x :: l) = (f x + sum_list (f <$> l))%nat.
Proof. reflexivity. Qed.

Lemma sum_list_ones {A} (f : A → nat) (l : list A) :
  (∀ x, f x = 1%nat) → sum_list (f <$> l) = length l.
Proof.
  intros Hf. induction l as [|x l IH]; [done|].
  rewrite sum_list_cons_fmap, IH, Hf. done.
Qed.

Lemma sum_list_at_least_one {A} (f : A → nat) (l : list A) :
  (∀ x, (1 ≤ f x)%nat) → (length l ≤ sum_list (f <$> l))%nat.
Proof.
  intros Hf. induction l as [|x l IH]; [done|].
  rewrite sum_list_cons_fmap. specialize (Hf x). simpl. lia.
Qed.

(** ** Quantity repair, shared by [clean_sales] and [validate_sales_data] *)

Lemma repair_quantity_floor (x : option Z) : 1 ≤ repair_quantity x.
Proof.
  destruct x as [q|]; simpl; [|lia].
  destruct (Z.ltb_spec 0 q); lia.
Qed.

Lemma repair_quantity_nonpositive (q : Z) :
  q ≤ 0 → repair_quantity (Some q) = 1.
Proof. intros Hq. simpl. destruct (Z.ltb_spec 0 q); lia. Qed.

Lemma repair_quantity_positive (q : Z) :
  1 ≤ q → repair_quantity (Some q) = q.
Proof. intros Hq. simpl. destruct (Z.ltb_spec 0 q); lia. Qed.

(** ** load_data.py: [clean_sales] *)

(** C10. [clean_sales] keeps every row: the output has as many rows as the
    input, in the same order; a missing product_id or customer_id becomes -1
    and a present one is kept; a transaction_date that does not parse becomes
    2000-01-01 and one that parses is kept; so the three columns hold no
    null in the output. *)
Theorem clean_sales_keeps_every_row (df : list raw_sale) :
  length (LoadData.clean_sales df) = length df
  ∧ Forall2 (λ r o,
       transaction_id o = raw_transaction_id r
       ∧ sale_product_id o = Some (default (-1) (raw_product_id r))
       ∧ customer_id o = Some (default (-1) (raw_customer_id r))
       ∧ transaction_date o
         = Some (match to_datetime_cell (raw_transaction_date r) with
                 | Some d => d
                 | None => mkDate 2000 1 1
                 end))
     df (LoadData.clean_sales df)
  ∧ Forall (λ o, is_Some (sale_product_id o) ∧ is_Some (customer_id o)
                 ∧ is_Some (transaction_date o))
     (LoadData.clean_sales df).
Proof.
  unfold LoadData.clean_sales. split; [|split].
  - by rewrite length_fmap.
  - induction df as [|r df IH]; csimpl; constructor; [|exact IH].
    by repeat split.
  - apply Forall_fmap, Forall_true. intros r. simpl. by repeat split.
Qed.

(** A row with every repairable defect at once is kept and repaired. *)
Example clean_sales_dirty_row :
  LoadData.clean_sales
    [mkRawSale (Some 5) None None (Some (-3)) (Some "2024/13/40")]
  = [mkSale (Some 5) (Some (-1)) (Some (-1)) (Some 1)
       (Some (mkDate 2000 1 1))].
Proof. reflexivity. Qed.

(** ** etl_pipeline_with_validations.py: [validate_sales_data] *)

Lemma v_sale_add_price_revenue prices (l : list sale) :
  Validation.v_sale <$> (Validation.add_price_revenue prices <$> l) = l.
Proof. induction l as [|r l IH]; [done|]. csimpl. by rewrite IH. Qed.

(** The sales columns of the validated frame are the accepted input rows, in
    order, with the quantity repaired. *)
Lemma validate_sales_data_rows df vp vc prices :
  Validation.v_sale <$> Validation.validate_sales_data df vp vc prices
  = Validation.repair_row <$> filter (accepted vp vc) df.
Proof.
  unfold Validation.validate_sales_data, Validation.keep_referenced,
    Validation.repair_quantities, Validation.dropna_critical.
  rewrite v_sale_add_price_revenue.
  rewrite filter_fmap, list_filter_filter. f_equal.
  apply list_filter_iff. intros r. unfold accepted. simpl.
  split; [tauto|]. intros (Hp & Hc & Hd). repeat split; try done.
  - destruct Hp as (p & -> & _). by eexists.
  - destruct Hc as (c & -> & _). by eexists.
Qed.

(** C4. Every row [validate_sales_data] returns has its product_id in the
    valid product keys and its customer_id in the valid customer keys, and
    the rows returned are exactly the input rows that pass both membership
    checks (and have a transaction_date): a row failing either check is not
    in the result. *)
Theorem validate_sales_data_referential_integrity
    (df : list sale) (valid_product_ids valid_customer_ids : list Z)
    (product_prices : gmap Z Q) :
  let out := Validation.validate_sales_data df valid_product_ids
               valid_customer_ids product_prices in
  Forall (λ v,
     (∃ p, sale_product_id (Validation.v_sale v) = Some p
           ∧ p ∈ valid_product_ids)
     ∧ (∃ c, customer_id (Validation.v_sale v) = Some c
             ∧ c ∈ valid_customer_ids)) out
  ∧ Forall2 (λ r v,
       transaction_id (Validation.v_sale v) = transaction_id r
       ∧ sale_product_id (Validation.v_sale v) = sale_product_id r
       ∧ customer_id (Validation.v_sale v) = customer_id r
       ∧ transaction_date (Validation.v_sale v) = transaction_date r)
     (filter (λ r, Validation.isin (sale_product_id r) valid_product_ids
                   ∧ Validation.isin (customer_id r) valid_customer_ids
                   ∧ is_Some (transaction_date r)) df)
     out.
Proof.
  intros out. split.
  - apply (Forall_fmap Validation.v_sale
             (λ s, (∃ p, sale_product_id s = Some p ∧ p ∈ valid_product_ids)
                   ∧ (∃ c, customer_id s = Some c ∧ c ∈ valid_customer_ids))).
    subst out. rewrite validate_sales_data_rows.
    apply Forall_fmap, Forall_forall. intros r [Hr _]%list_elem_of_filter.
    destruct Hr as (Hp & Hc & _). by split.
  - pose proof (validate_sales_data_rows df valid_product_ids
                  valid_customer_ids product_prices) as Hrows.
    fold out in Hrows. change (filter _ df) with
      (filter (accepted valid_product_ids valid_customer_ids) df).
    revert Hrows. generalize (filter (accepted valid_product_ids valid_customer_ids) df).
    generalize out. clear.
    intros out l. revert out.
    induction l as [|r l IH]; intros [|v out] Hrows; try discriminate.
    + constructor.
    + csimpl in Hrows. injection Hrows as Hv Hrest. constructor.
      * rewrite Hv. by repeat split.
      * by apply IH.
Qed.

Lemma Forall2_fmap_eq {A B C} (f : A → C) (g : B → C) (R : A → B → Prop)
    (l : list A) (k : list B) :
  (∀ x y, f x = g y → R x y) → f <$> l = g <$> k → Forall2 R l k.
Proof.
  intros HR. revert k.
  induction l as [|x l IH]; intros [|y k] Heq; try discriminate.
  - constructor.
  - csimpl in Heq. injection Heq as Hxy Hrest. constructor; auto.
Qed.

(** C5. Cleaning and validation leave every quantity at 1 or more: a
    non-positive (or missing) quantity becomes 1 and a positive one is kept.
    The quantity decides nothing about which rows survive: [clean_sales]
    returns one row per input row, and [validate_sales_data] one row per input
    row that has its three critical fields and known keys, whatever the
    quantity of that row was. *)
Theorem quantity_floor_by_repair
    (raw : list raw_sale) (df : list sale)
    (valid_product_ids valid_customer_ids : list Z)
    (product_prices : gmap Z Q) :
  (∀ q : Z, repair_quantity (Some q) = if decide (q ≤ 0) then 1 else q)
  ∧ Forall2 (λ r o, quantity o = Some (repair_quantity (raw_quantity r))
                    ∧ at_least_one (quantity o))
      raw (LoadData.clean_sales raw)
  ∧ Forall2 (λ r v,
       quantity (Validation.v_sale v) = Some (repair_quantity (quantity r))
       ∧ at_least_one (quantity (Validation.v_sale v)))
      (filter (accepted valid_product_ids valid_customer_ids) df)
      (Validation.validate_sales_data df valid_product_ids
         valid_customer_ids product_prices).
Proof.
  split; [|split].
  - intros q. case_decide.
    + by apply repair_quantity_nonpositive.
    + apply repair_quantity_positive. lia.
  - unfold LoadData.clean_sales.
    induction raw as [|r raw IH]; csimpl; constructor; [|exact IH].
    simpl. split; [done|]. eexists. split; [done|].
    apply repair_quantity_floor.
  - apply (Forall2_fmap_eq Validation.repair_row Validation.v_sale).
    + intros r v <-. simpl. split; [done|]. eexists. split; [done|].
      apply repair_quantity_floor.
    + symmetry. apply validate_sales_data_rows.
Qed.

(** The scenario of the specification: the quantity -3 alone would be
    repaired, the unknown customer 99 is what removes the row. *)
Example validate_sales_data_unknown_customer :
  Validation.validate_sales_data
    (parse_dates [mkRawSale (Some 5) (Some 1) (Some 99) (Some (-3))
                    (Some "2024-03-04")])
    [1] [7] {[1 := 10%Q]} = []
  ∧ Validation.v_sale
    <$> Validation.validate_sales_data
          (parse_dates [mkRawSale (Some 5) (Some 1) (Some 7) (Some (-3))
                          (Some "2024-03-04")])
          [1] [7] {[1 := 10%Q]}
    = [mkSale (Some 5) (Some 1) (Some 7) (Some 1) (Some (mkDate 2024 3 4))].
Proof. split; reflexivity. Qed.

(** ** Product prices: [transform_products] and [clean_products] *)

(** The product of the specification's scenario: no name, category Toys and
    the price text abc. *)
Example clean_products_scenario :
  LoadData.clean_products [mkProduct (CInt 1) None (Some "Toys") (NStr "abc")]
  = [mkProduct (CInt 1) (Some "Unknown") (Some "Other") (NNum 0)].
Proof. reflexivity. Qed.

(** [clean_products] clips a negative price to 0, it does not negate it. *)
Example clean_products_negative_price :
  price <$> LoadData.clean_products
              [mkProduct (CInt 2) (Some "pen") (Some "Books") (NNum (-5))]
  = [NNum 0].
Proof. reflexivity. Qed.

(** C6 as stated fails on [transform_products]: the price text abc does not
    end as 0 but as NaN, so the column is not a defined number on that row. *)
Lemma transform_products_price_abc_is_nan :
  ¬ Forall (λ s, ∃ q, price (Enrichment.e_product (Enrichment.s_row s)) = NNum q
                      ∧ (0 <= q)%Q)
      (Enrichment.transform_products
         (Enrichment.enrich_product_data
            [mkProduct (CInt 1) None (Some "Toys") (NStr "abc")]
            Enrichment.empty_metadata)
         []).
Proof.
  intros H. apply Forall_inv in H. destruct H as (q & Hq & _).
  vm_compute in Hq. discriminate Hq.
Qed.

(** C6, amended.  [transform_products] replaces a price that parses as a
    number by its absolute value, which is non-negative, and leaves a price
    that does not parse as NaN.  [clean_products] always ends with a defined
    non-negative price: a parsed price that is 0 or more is kept, a negative
    one becomes 0, and a price that does not parse becomes 0. *)
Theorem product_price_after_transform
    (products_df : list Enrichment.enriched_product) (sales_df : list raw_sale)
    (df : list product) :
  Forall2 (λ e s,
     match to_numeric (price (Enrichment.e_product e)) with
     | Some q => price (Enrichment.e_product (Enrichment.s_row s))
                 = NNum (Qabs q) ∧ (0 <= Qabs q)%Q
     | None => price (Enrichment.e_product (Enrichment.s_row s)) = NNaN
     end)
    products_df (Enrichment.transform_products products_df sales_df)
  ∧ Forall2 (λ p o,
       ∃ q, price o = NNum q ∧ (0 <= q)%Q
            ∧ q = match to_numeric (price p) with
                  | Some x => if Qle_bool 0 x then x else 0%Q
                  | None => 0%Q
                  end)
      df (LoadData.clean_products df).
Proof.
  split.
  - unfold Enrichment.transform_products.
    induction products_df as [|e l IH]; csimpl; constructor; [|exact IH].
    simpl. unfold Enrichment.abs_price.
    destruct (to_numeric (price (Enrichment.e_product e))) as [q|]; [|done].
    split; [done|apply Qabs_nonneg].
  - unfold LoadData.clean_products.
    induction df as [|p l IH]; csimpl; constructor; [|exact IH].
    simpl. unfold LoadData.clean_price, LoadData.clip_lower_0.
    eexists. split; [done|].
    destruct (to_numeric (price p)) as [x|]; simpl.
    + destruct (Qle_bool 0 x) eqn:Hx; split; try done.
      by apply Qle_bool_iff.
    + split; done.
Qed.

(** ** Enricher: cardinality of the left merge *)

Lemma matches_normalized (p : product) (metas : list Enrichment.meta_row) :
  length (Enrichment.matches (Enrichment.normalize_product p)
            (Enrichment.normalize_meta <$> metas))
  = match_count metas p.
Proof.
  unfold Enrichment.matches, match_count. rewrite filter_fmap, length_fmap.
  f_equal. apply list_filter_iff. intros m. simpl. split; congruence.
Qed.

Lemma length_merge_left (products : list product)
    (metas : list Enrichment.meta_row) :
  length (Enrichment.merge_left products metas)
  = sum_list ((λ p, length (Enrichment.matches p metas) `max` 1)%nat
              <$> products).
Proof.
  unfold Enrichment.merge_left.
  induction products as [|p l IH]; [done|].
  rewrite bind_cons, length_app, IH, fmap_cons. simpl. f_equal.
  destruct (Enrichment.matches p metas) as [|m ms]; [done|].
  change (length (Enrichment.joined p <$> m :: ms)
          = (length (m :: ms) `max` 1)%nat).
  rewrite length_fmap. simpl. lia.
Qed.

Lemma filter_key_NoDup {A K} `{EqDecision K} (key : A → K) (k : K)
    (l : list A) :
  NoDup (key <$> l) → (length (filter (λ x, key x = k) l) ≤ 1)%nat.
Proof.
  induction l as [|x l IH]; csimpl; [lia|].
  intros [Hx Hl]%NoDup_cons. rewrite filter_cons.
  destruct (decide (key x = k)) as [<-|Hne]; [|by apply IH].
  simpl. rewrite (filter_none (λ y, key y = key x) l); [simpl; lia|].
  intros y Hy Heq. apply Hx. rewrite <- Heq. by apply list_elem_of_fmap_2.
Qed.

(** C1 as stated fails: one product and two metadata records with the id of
    that product give two output rows. *)
Lemma enrich_product_data_duplicate_ids_fan_out :
  let products_df := [mkProduct (CInt 1) (Some "pen") (Some "Books") (NNum 2)] in
  let metadata_df :=
    {| Enrichment.columns :=
         ["id"; "description"; "rating"; "availability_status";
          "product_id_api"];
       Enrichment.rows :=
         [Enrichment.mkMetaRow (CStr "1") (Some "10") (Some "blue") (Some 4%Q)
            (Some "in stock");
          Enrichment.mkMetaRow (CStr "1") (Some "11") (Some "red") (Some 3%Q)
            (Some "sold out")] |} in
  length products_df = 1%nat
  ∧ length (Enrichment.enrich_product_data products_df metadata_df) = 2%nat.
Proof. split; reflexivity. Qed.

(** C1, amended.  [enrich_product_data] returns, for each product row in
    order, one row per metadata record whose normalised id equals the
    product's normalised key, and one row when there is no such record: at
    least N rows for N products, and exactly N when the metadata is empty or
    its normalised ids are pairwise distinct. *)
Theorem enrich_product_data_cardinality
    (products_df : list product) (metadata_df : Enrichment.metadata) :
  let out := Enrichment.enrich_product_data products_df metadata_df in
  length out
  = sum_list ((λ p, match_count (Enrichment.rows metadata_df) p `max` 1)%nat
              <$> products_df)
  ∧ (length products_df ≤ length out)%nat
  ∧ (NoDup (normalize_key ∘ Enrichment.meta_id <$> Enrichment.rows metadata_df)
     → length out = length products_df).
Proof.
  intros out.
  assert (length out
          = sum_list ((λ p, match_count (Enrichment.rows metadata_df) p
                            `max` 1)%nat <$> products_df)) as Hlen.
  { subst out. unfold Enrichment.enrich_product_data.
    destruct (Enrichment.rows metadata_df) as [|m ms] eqn:Hrows.
    - rewrite length_fmap. symmetry. by apply sum_list_ones.
    - rewrite length_fmap, length_merge_left, <- list_fmap_compose.
      f_equal. apply list_fmap_ext. intros _ p _.
      exact (f_equal (λ n, n `max` 1)%nat (matches_normalized p (m :: ms))). }
  split; [exact Hlen|]. rewrite Hlen. clear Hlen out. split.
  - apply sum_list_at_least_one. lia.
  - intros Hnodup. apply sum_list_ones. intros p.
    pose proof (filter_key_NoDup (normalize_key ∘ Enrichment.meta_id)
                  (normalize_key (product_id p))
                  (Enrichment.rows metadata_df) Hnodup) as Hle.
    unfold match_count. simpl in Hle. lia.
Qed.

(** Distinct ids: three products, two records, three output rows. *)
Lemma enrich_product_data_cardinality_witness :
  let metas :=
    [Enrichment.mkMetaRow (CStr "1") (Some "10") (Some "blue") (Some 4%Q)
       (Some "in stock");
     Enrichment.mkMetaRow (CInt 3) (Some "11") None None None] in
  NoDup (normalize_key ∘ Enrichment.meta_id <$> metas)
  ∧ length (Enrichment.enrich_product_data
              [mkProduct (CInt 1) None None NNaN;
               mkProduct (CStr " 2 ") None None NNaN;
               mkProduct (CInt 3) None None NNaN]
              (Enrichment.mkMetadata [] metas)) = 3%nat.
Proof.
  intros metas.
  assert (NoDup (normalize_key ∘ Enrichment.meta_id <$> metas)) as Hnodup.
  { apply (bool_decide_unpack _). vm_compute. exact I. }
  split; [exact Hnodup|].
  exact (proj2 (proj2 (enrich_product_data_cardinality
                         [mkProduct (CInt 1) None None NNaN;
                          mkProduct (CStr " 2 ") None None NNaN;
                          mkProduct (CInt 3) None None NNaN]
                         (Enrichment.mkMetadata [] metas))) Hnodup).
Defined.

(** ** incremental_pipeline.py: the watermark *)

(** What the call of the advance operation leaves in the database. *)
Lemma update_last_processed_date_stores (new_date : date)
    (s : Incremental.db) :
  (Incremental.update_last_processed_date new_date s).1 = s.
Proof. reflexivity. Qed.

(** No run changes the watermark table. *)
Lemma process_sales_data_etl_state
    (accepts : list sale → list sale → bool) (csv : list raw_sale)
    (s : Incremental.db) :
  Incremental.etl_state (Incremental.process_sales_data accepts csv s)
  = Incremental.etl_state s.
Proof.
  unfold Incremental.process_sales_data, Incremental.to_sql_append.
  destruct (Incremental.new_sales csv s) as [[|r l]|]; try done.
  destruct (accepts (Incremental.sales_table s) (r :: l)); [|done].
  by destruct (Incremental.max_date (r :: l)).
Qed.

(** Under a stored watermark the filter raises and the run changes nothing. *)
Lemma process_sales_data_stored (accepts : list sale → list sale → bool)
    (csv : list raw_sale) (s : Incremental.db) (w : date) :
  Incremental.get_last_processed_date s = Some w →
  Incremental.process_sales_data accepts csv s = s.
Proof.
  intros Hw. unfold Incremental.process_sales_data, Incremental.new_sales.
  by rewrite Hw.
Qed.

(** With no watermark stored a run appends the dated rows of its file, when
    the database takes them, and nothing otherwise. *)
Lemma process_sales_data_table (accepts : list sale → list sale → bool)
    (csv : list raw_sale) (s : Incremental.db) :
  Incremental.get_last_processed_date s = None →
  Incremental.sales_table (Incremental.process_sales_data accepts csv s)
  = if accepts (Incremental.sales_table s)
         (Incremental.dropna_date (parse_dates csv))
    then Incremental.sales_table s
         ++ Incremental.dropna_date (parse_dates csv)
    else Incremental.sales_table s.
Proof.
  intros Hw. unfold Incremental.process_sales_data, Incremental.new_sales,
    Incremental.to_sql_append.
  rewrite Hw.
  destruct (Incremental.dropna_date (parse_dates csv)) as [|r l] eqn:Hrows.
  - rewrite app_nil_r. by destruct (accepts _ _).
  - destruct (accepts (Incremental.sales_table s) (r :: l)); [|done].
    by destruct (Incremental.max_date (r :: l)).
Qed.



(** C3: the code at the failing input.  From the empty database, on tables
    that take any row, the first run appends the two dated rows of the file
    but leaves no watermark (the upsert is never committed), so the second
    run on the same file appends the same two rows again.  With a watermark
    stored, the run appends nothing although the file holds a later row (the
    filter raises, and the exception is caught). *)
Theorem process_sales_data_loses_watermark :
  let csv :=
    [mkRawSale (Some 1) (Some 1) (Some 1) (Some 2) (Some "2024-05-20");
     mkRawSale (Some 2) (Some 1) (Some 1) (Some 1) (Some "InvalidDate");
     mkRawSale (Some 3) (Some 2) (Some 1) (Some 4) (Some "2024-06-01")] in
  let accepts (table rows : list sale) := true in
  let s1 := Incremental.process_sales_data accepts csv
              (Incremental.mkDb [] ∅) in
  let s2 := Incremental.process_sales_data accepts csv s1 in
  let stored := Incremental.mkDb [] {[1 := mkDate 2024 5 20]} in
  (transaction_id <$> Incremental.sales_table s1 = [Some 1; Some 3]
   ∧ Incremental.get_last_processed_date s1 = None)
  ∧ (transaction_id <$> Incremental.sales_table s2
     = [Some 1; Some 3; Some 1; Some 3]
     ∧ Incremental.get_last_processed_date s2 = None)
  ∧ Incremental.process_sales_data accepts csv stored = stored.
Proof. repeat split; reflexivity. Qed.

(** ** Metadata fetcher *)


(** The loop returns what it had plus the served pages, in order. *)
Lemma fetch_loop_fetched (api : Z → Enrichment.response) (remaining : nat)
    (page : Z) (acc : list Enrichment.api_record)
    (pages : list (list Enrichment.api_record)) :
  fetched api page remaining pages →
  Enrichment.fetch_loop api remaining page acc = acc ++ concat pages.
Proof.
  revert page acc pages.
  induction remaining as [|n IH]; intros page acc pages (Hlen & Hserved & Hstop).
  - destruct pages; [|simpl in Hlen; lia]. simpl. by rewrite app_nil_r.
  - destruct pages as [|data pages]; simpl.
    + rewrite app_nil_r. specialize (Hstop ltac:(simpl; lia)).
      simpl in Hstop. rewrite Z.add_0_r in Hstop.
      destruct (api page) as [code d|]; [|done].
      destruct Hstop as [Hcode| ->].
      * by apply Z.eqb_neq in Hcode as ->.
      * by destruct (code =? 200).
    + destruct (Hserved 0%nat data eq_refl) as [Hpage Hne].
      simpl in Hpage. rewrite Z.add_0_r in Hpage. rewrite Hpage. simpl.
      destruct data as [|x data]; [done|].
      rewrite (IH (page + 1) (acc ++ x :: data) pages).
      * by rewrite <- app_assoc.
      * split; [simpl in Hlen; lia|]. split.
        -- intros i d Hi. specialize (Hserved (S i) d Hi).
           by replace (page + 1 + Z.of_nat i) with (page + Z.of_nat (S i))
             by lia.
        -- intros Hlt.
           replace (page + 1 + Z.of_nat (length pages))
             with (page + Z.of_nat (length ((x :: data) :: pages)))
             by (simpl; lia).
           apply Hstop. simpl. lia.
Qed.







(** The rows of a fetched frame on a concrete page: a padded id is stripped,
    a null description becomes the text None, a rating that is no number
    becomes 0, and a key one object lacks while another has it becomes the
    text nan. *)
Example fetch_product_metadata_rows :
  let api (page : Z) :=
    if page =? 1 then
      Enrichment.Response 200
        [Enrichment.mkApiRecord (Some (CStr " 7 ")) (Some CNone)
           (Some (NStr "x")) (Some (CStr "in stock")) (Some (CInt 7));
         Enrichment.mkApiRecord (Some (CInt 8)) None (Some (NNum (9 # 2)))
           (Some (CStr "low")) (Some (CInt 8))]
    else Enrichment.Response 404 [] in
  Enrichment.fetch_product_metadata api 5
  = Some (Enrichment.mkMetadata
            ["id"; "description"; "rating"; "availability_status";
             "product_id_api"]
            [Enrichment.mkMetaRow (CStr "7") (Some "7") (Some "None")
               (Some 0%Q) (Some "in stock");
             Enrichment.mkMetaRow (CStr "8") (Some "8") (Some "nan")
               (Some (9 # 2)%Q) (Some "low")]).
Proof. reflexivity. Qed.

(** Nothing fetched: a failed first request gives the empty frame. *)
Example fetch_product_metadata_nothing_fetched :
  Enrichment.fetch_product_metadata (λ _, Enrichment.RequestException) 5
  = Some Enrichment.empty_metadata.
Proof. reflexivity. Qed.

(** ** Sale transform *)

Lemma derive_resolved (r : raw_sale) (ps : list product) :
  Enrichment.derive_sale
  <$> Enrichment.dropna_price
        (prod_map id to_numeric <$> ((λ p, (r, price p)) <$> ps))
  = (λ q, Enrichment.derive_sale (r, Some q)) <$> omap (to_numeric ∘ price) ps.
Proof.
  unfold Enrichment.dropna_price.
  rewrite <- list_fmap_compose, filter_fmap, <- list_fmap_compose.
  induction ps as [|p ps IH]; [done|].
  cbn [omap list_omap compose].
  destruct (to_numeric (price p)) as [q|] eqn:Hq.
  - rewrite filter_cons_True by (simpl; rewrite Hq; by eexists).
    rewrite !fmap_cons. f_equal; [|exact IH].
    simpl. unfold prod_map. simpl. by rewrite Hq.
  - rewrite filter_cons_False by (simpl; rewrite Hq; by intros [? ?]).
    exact IH.
Qed.

(** [transform_sales] row by row: a sales row yields one derived row per
    resolved price, and nothing else decides whether it is kept. *)
Lemma transform_sales_by_row (sales_df : list raw_sale)
    (products_df : list Enrichment.scored_product) :
  Enrichment.transform_sales sales_df products_df
  = r ← sales_df;
    (λ q, Enrichment.derive_sale (r, Some q)) <$> resolved_prices products_df r.
Proof.
  unfold Enrichment.transform_sales, Enrichment.merge_price, resolved_prices.
  induction sales_df as [|r l IH]; [done|].
  rewrite !bind_cons, fmap_app. unfold Enrichment.dropna_price in *.
  rewrite filter_app, fmap_app, IH. f_equal.
  destruct (Enrichment.priced_by products_df r) as [|p ps] eqn:Hps; [done|].
  apply (derive_resolved r (p :: ps)).
Qed.

Lemma length_bind_sum {A B} (f : A → list B) (l : list A) :
  length (l ≫= f) = sum_list ((λ x, length (f x)) <$> l).
Proof.
  induction l as [|x l IH]; [done|].
  by rewrite bind_cons, length_app, IH, sum_list_cons_fmap.
Qed.

Lemma resolved_prices_elem (products_df : list Enrichment.scored_product)
    (r : raw_sale) (q : Q) :
  q ∈ resolved_prices products_df r
  ↔ ∃ p, p ∈ products_df
         ∧ normalize_key (product_id (Enrichment.e_product (Enrichment.s_row p)))
           = normalize_int_key (raw_product_id r)
         ∧ to_numeric (price (Enrichment.e_product (Enrichment.s_row p)))
           = Some q.
Proof.
  unfold resolved_prices, Enrichment.priced_by.
  rewrite list_elem_of_omap. split.
  - intros (p & [Hkey Hp]%list_elem_of_filter & Hq).
    apply list_elem_of_fmap in Hp as (sp & -> & Hsp). by exists sp.
  - intros (sp & Hsp & Hkey & Hq).
    exists (Enrichment.e_product (Enrichment.s_row sp)). split; [|done].
    apply list_elem_of_filter. split; [done|].
    apply list_elem_of_fmap. by exists sp.
Qed.

(** C8 as stated fails: a sale whose transaction_date does not parse, and
    whose product has a price, is in the output, with a null date and a null
    purchase_month. *)
Lemma transform_sales_keeps_unparsable_date :
  let product :=
    Enrichment.mkScored
      (Enrichment.with_defaults
         (mkProduct (CStr "1") (Some "pen") (Some "Books") (NNum 5)))
      0 in
  let sales_df :=
    [mkRawSale (Some 7) (Some 1) (Some 3) (Some 2) (Some "InvalidDate")] in
  to_datetime "InvalidDate" = None
  ∧ Enrichment.transform_sales sales_df [product]
    = [Enrichment.mkTransformedSale (Some 7) "1" (Some 3) (Some 2) (Some 5%Q)
         (Some (inject_Z 2 * 5)%Q) None None].
Proof. split; reflexivity. Qed.

(** C8, amended.  [transform_sales] returns, for each sales row in order, one
    row per numeric price the join with the products frame resolves for it,
    hence none for a sales row whose price is not resolved; each returned row
    carries that price, total_sales_value = quantity * price, the parsed
    transaction_date and purchase_month as the YYYY-MM label of that date.  A
    transaction_date that does not parse does not exclude the row: it is kept
    with a null date and a null purchase_month. *)
Theorem transform_sales_derived_rows
    (sales_df : list raw_sale) (products_df : list Enrichment.scored_product) :
  let out := Enrichment.transform_sales sales_df products_df in
  Forall (λ t, ∃ r q,
     r ∈ sales_df ∧ q ∈ resolved_prices products_df r
     ∧ Enrichment.ts_price t = Some q
     ∧ Enrichment.ts_quantity t = raw_quantity r
     ∧ Enrichment.ts_total_sales_value t
       = (λ n, (inject_Z n * q)%Q) <$> raw_quantity r
     ∧ Enrichment.ts_transaction_date t
       = to_datetime_cell (raw_transaction_date r)
     ∧ Enrichment.ts_purchase_month t
       = strftime_Ym <$> to_datetime_cell (raw_transaction_date r)) out
  ∧ length out
    = sum_list ((λ r, length (resolved_prices products_df r)) <$> sales_df)
  ∧ (∀ r q, r ∈ sales_df → q ∈ resolved_prices products_df r →
       ∃ t, t ∈ out
            ∧ Enrichment.ts_transaction_id t = raw_transaction_id r
            ∧ Enrichment.ts_price t = Some q
            ∧ Enrichment.ts_transaction_date t
              = to_datetime_cell (raw_transaction_date r)
            ∧ Enrichment.ts_purchase_month t
              = strftime_Ym <$> to_datetime_cell (raw_transaction_date r))
  ∧ (∀ r q, q ∈ resolved_prices products_df r
       ↔ ∃ p, p ∈ products_df
              ∧ normalize_key
                  (product_id (Enrichment.e_product (Enrichment.s_row p)))
                = normalize_int_key (raw_product_id r)
              ∧ to_numeric (price (Enrichment.e_product (Enrichment.s_row p)))
                = Some q).
Proof.
  intros out. subst out. rewrite transform_sales_by_row.
  split; [|split; [|split]].
  - apply Forall_forall. intros t (r & Ht & Hr)%list_elem_of_bind.
    apply list_elem_of_fmap in Ht as (q & -> & Hq).
    exists r, q. repeat split; try done.
  - rewrite length_bind_sum. f_equal. apply list_fmap_ext. intros _ r _. apply length_fmap.
  - intros r q Hr Hq. exists (Enrichment.derive_sale (r, Some q)).
    split; [|done]. apply list_elem_of_bind. exists r. split; [|done].
    apply list_elem_of_fmap. by exists q.
  - apply resolved_prices_elem.
Qed.

(** Two sales of a priced product, one with a date that does not parse. *)
Lemma transform_sales_derived_rows_witness :
  let product :=
    Enrichment.mkScored
      (Enrichment.with_defaults
         (mkProduct (CStr "1") (Some "pen") (Some "Books") (NNum 5)))
      0 in
  let bad := mkRawSale (Some 7) (Some 1) (Some 3) (Some 2) (Some "2024/13/40") in
  let good := mkRawSale (Some 8) (Some 1) (Some 3) (Some 4) (Some "2024-06-01") in
  bad ∈ [good; bad] ∧ 5%Q ∈ resolved_prices [product] bad
  ∧ ∃ t, t ∈ Enrichment.transform_sales [good; bad] [product]
         ∧ Enrichment.ts_transaction_id t = Some 7
         ∧ Enrichment.ts_price t = Some 5%Q
         ∧ Enrichment.ts_transaction_date t = None
         ∧ Enrichment.ts_purchase_month t = None.
Proof.
  intros product bad good.
  assert (bad ∈ [good; bad]) as Hin by (right; left).
  assert (5%Q ∈ resolved_prices [product] bad) as Hq by (vm_compute; left).
  split; [exact Hin|]. split; [exact Hq|].
  exact (proj1 (proj2 (proj2 (transform_sales_derived_rows [good; bad]
                                [product]))) bad 5%Q Hin Hq).
Defined.

(** ** Popularity score *)

(** The aggregate holds, under each key of the sales frame, the sum of the
    quantities of the rows of that key, and nothing under any other key. *)
Lemma total_sales_quantity_lookup (sales_df : list raw_sale) (k : string) :
  Enrichment.total_sales_quantity sales_df !! k
  = if decide (k ∈ sales_keys sales_df)
    then Some (summed_quantity sales_df k) else None.
Proof.
  unfold sales_keys, summed_quantity.
  induction sales_df as [|r l IH]; [done|].
  cbn [Enrichment.total_sales_quantity foldr].
  fold (Enrichment.total_sales_quantity l).
  rewrite fmap_cons, filter_cons. cbn [compose].
  destruct (decide (normalize_int_key (raw_product_id r) = k)) as [Heq|Hne].
  - rewrite Heq, lookup_insert_eq, decide_True by left.
    rewrite fmap_cons. cbn [foldr compose]. f_equal. rewrite IH.
    destruct (decide (k ∈ normalize_int_key ∘ raw_product_id <$> l))
      as [Hin|Hout]; simpl; [lia|].
    rewrite filter_none; [simpl; lia|].
    intros x Hx Hk. apply Hout. rewrite <- Hk.
    by apply (list_elem_of_fmap_2 (normalize_int_key ∘ raw_product_id)).
  - rewrite lookup_insert_ne by done. rewrite IH.
    apply decide_ext. rewrite elem_of_cons.
    split; [by right|]. intros [->|Hin]; [by destruct Hne|done].
Qed.

Lemma series_get_summed (sales_df : list raw_sale) (k : string) :
  Enrichment.series_get (Enrichment.total_sales_quantity sales_df) (CStr k)
  = summed_quantity sales_df k.
Proof.
  simpl. rewrite total_sales_quantity_lookup. case_decide; [done|].
  unfold summed_quantity. rewrite filter_none; [done|].
  intros x Hx Hk. apply H. rewrite <- Hk.
  by apply (list_elem_of_fmap_2 (normalize_int_key ∘ raw_product_id)).
Qed.

Lemma foldr_max_spec (vs : list Z) (m : Z) :
  foldr (λ v acc, Some (from_option (Z.max v) v acc)) None vs = Some m →
  m ∈ vs ∧ Forall (λ v, v ≤ m) vs.
Proof.
  revert m. induction vs as [|v vs IH]; intros m; simpl; [done|].
  destruct (foldr _ None vs) as [m'|] eqn:Hm'; simpl; intros [= <-].
  - destruct (IH m' eq_refl) as [Hin Hall]. split.
    + destruct (Z.max_spec v m') as [[_ ->]|[_ ->]]; [by right|left].
    + constructor; [lia|].
      eapply Forall_impl; [exact Hall|]. simpl. intros; lia.
  - split; [left|]. constructor; [lia|].
    destruct vs; [constructor|discriminate].
Qed.

(** [series_max] is the value under some key, and no value exceeds it. *)
Lemma series_max_spec (total : gmap string Z) (m : Z) :
  Enrichment.series_max total = Some m →
  (∃ k, total !! k = Some m) ∧ ∀ k v, total !! k = Some v → v ≤ m.
Proof.
  intros [Hin Hall]%foldr_max_spec. split.
  - apply list_elem_of_fmap in Hin as ([k v] & -> & Hkv).
    exists k. by apply elem_of_map_to_list.
  - intros k v Hkv. rewrite Forall_forall in Hall. apply Hall.
    apply list_elem_of_fmap. exists (k, v). split; [done|].
    by apply elem_of_map_to_list.
Qed.

(** A value of the series in index order is the value under some key. *)
Lemma sorted_values_elem (total : gmap string Z) (v : Z) :
  v ∈ Enrichment.sorted_values total → ∃ k, total !! k = Some v.
Proof.
  unfold Enrichment.sorted_values.
  intros ([k v'] & -> & Hkv)%list_elem_of_fmap.
  rewrite merge_sort_Permutation in Hkv.
  exists k. by apply elem_of_map_to_list.
Qed.

(** Whatever the key, the lookup gives the default or a value of the series. *)
Lemma series_get_cases (total : gmap string Z) (x : cell) :
  Enrichment.series_get total x = 0
  ∨ ∃ k, total !! k = Some (Enrichment.series_get total x).
Proof.
  destruct x as [| |z|k]; simpl; try by left.
  - destruct ((- Z.of_nat (length (Enrichment.sorted_values total)) <=? z)
              && (z <? Z.of_nat (length (Enrichment.sorted_values total))));
      [|by left].
    destruct (Enrichment.sorted_values total !! _) as [v|] eqn:Hv;
      simpl; [|by left].
    right. apply sorted_values_elem. by eapply list_elem_of_lookup_2.
  - destruct (total !! k) as [v|] eqn:Hk; simpl; [|by left].
    right. by exists k.
Qed.

Lemma series_get_le_max (total : gmap string Z) (m : Z) (x : cell) :
  Enrichment.series_max total = Some m → 0 < m →
  Enrichment.series_get total x ≤ m.
Proof.
  intros Hmax Hpos. destruct (series_max_spec total m Hmax) as [_ Hle].
  destruct (series_get_cases total x) as [->|[k Hk]]; [lia|].
  by eapply Hle.
Qed.

(** Bounds of [score] for a positive maximum. *)
Lemma score_bounds (total : gmap string Z) (m : Z) (x : cell) :
  0 < m → Enrichment.series_get total x ≤ m →
  (Enrichment.score total m x <= 100)%Q
  ∧ (0 ≤ Enrichment.series_get total x → (0 <= Enrichment.score total m x)%Q)
  ∧ (Enrichment.series_get total x = 0 → (Enrichment.score total m x == 0)%Q).
Proof.
  intros Hpos Hle. unfold Enrichment.score.
  generalize dependent (Enrichment.series_get total x). intros g Hle.
  destruct m as [|p|p]; try lia.
  unfold Qle, Qeq, Qdiv, Qmult, Qinv. simpl.
  repeat split; intros; nia.
Qed.

(** The score [transform_products] gives one row. *)
Lemma popularity_score_row (total : gmap string Z) (x : cell) (s : Q) :
  s = match match Enrichment.series_max total with
            | Some m => if 0 <? m then Some m else None
            | None => None
            end with
      | Some m => Enrichment.score total m x
      | None => 0%Q
      end →
  (s <= 100)%Q
  ∧ (0 ≤ Enrichment.series_get total x → (0 <= s)%Q)
  ∧ match Enrichment.series_max total with
    | Some m => if decide (0 < m)
                then s = (inject_Z (Enrichment.series_get total x)
                          / inject_Z m * 100)%Q
                else s = 0%Q
    | None => s = 0%Q
    end
  ∧ (Enrichment.series_get total x = 0 → (s == 0)%Q).
Proof.
  intros ->. destruct (Enrichment.series_max total) as [m|] eqn:Hmax.
  - destruct (Z.ltb_spec 0 m) as [Hpos|Hneg].
    + pose proof (series_get_le_max total m x Hmax Hpos) as Hle.
      destruct (score_bounds total m x Hpos Hle) as (Hup & Hlow & Hzero).
      rewrite decide_True by done. by repeat split.
    + rewrite decide_False by lia. by repeat split.
  - by repeat split.
Qed.

(** C7 as stated fails: with raw quantities -5 for product 1 and 10 for
    product 2, the score of product 1 is -50, below 0. *)
Lemma popularity_score_below_zero :
  let metadata_df :=
    Enrichment.mkMetadata
      ["id"; "description"; "rating"; "availability_status"; "product_id_api"]
      [Enrichment.mkMetaRow (CStr "1") (Some "10") (Some "blue") (Some 4%Q)
         (Some "in stock")] in
  let products_df :=
    Enrichment.enrich_product_data
      [mkProduct (CInt 1) (Some "pen") (Some "Books") (NNum 2);
       mkProduct (CInt 2) (Some "ink") (Some "Books") (NNum 3)]
      metadata_df in
  let sales_df :=
    [mkRawSale (Some 1) (Some 1) (Some 1) (Some (-5)) (Some "2024-06-01");
     mkRawSale (Some 2) (Some 2) (Some 1) (Some 10) (Some "2024-06-02")] in
  ¬ Forall (λ s, (0 <= Enrichment.popularity_score s)%Q
                 ∧ (Enrichment.popularity_score s <= 100)%Q)
      (Enrichment.transform_products products_df sales_df).
Proof.
  intros metadata_df products_df sales_df H.
  apply Forall_inv in H. destruct H as [H _].
  vm_compute in H. by apply H.
Qed.

(** C7, amended.  After [transform_products] every popularity_score is at
    most 100, and it is at least 0 on every row for which the quantity looked
    up in the sales aggregate is not negative, hence on every row when no key
    of the sales frame has a negative sum (the raw quantities may be
    negative, and then a score can be negative).  The aggregate holds one sum
    per normalised product key of the sales frame, the key of the rows
    without product_id included, and the maximum ranges over all these keys.
    When the maximum is positive the score is the quantity looked up for the
    row divided by that maximum, times 100; for a row whose product_id is
    text, the quantity looked up is the sum under that key, and 0 when the
    key is not a key of the sales frame.  When the maximum is 0 or negative,
    or there is no sale at all, every score is 0. *)
Theorem popularity_score_range
    (products_df : list Enrichment.enriched_product)
    (sales_df : list raw_sale) :
  let total := Enrichment.total_sales_quantity sales_df in
  Forall2 (λ e s,
     let sold := Enrichment.series_get total
                   (product_id (Enrichment.e_product e)) in
     (Enrichment.popularity_score s <= 100)%Q
     ∧ (0 ≤ sold → (0 <= Enrichment.popularity_score s)%Q)
     ∧ match Enrichment.series_max total with
       | Some m =>
           if decide (0 < m)
           then Enrichment.popularity_score s
                = (inject_Z sold / inject_Z m * 100)%Q
           else Enrichment.popularity_score s = 0%Q
       | None => Enrichment.popularity_score s = 0%Q
       end
     ∧ (sold = 0 → (Enrichment.popularity_score s == 0)%Q))
    products_df (Enrichment.transform_products products_df sales_df)
  ∧ (∀ k, Enrichment.series_get total (CStr k) = summed_quantity sales_df k)
  ∧ (∀ k, k ∉ sales_keys sales_df → Enrichment.series_get total (CStr k) = 0)
  ∧ (∀ m, Enrichment.series_max total = Some m →
       (∃ k, k ∈ sales_keys sales_df ∧ summed_quantity sales_df k = m)
       ∧ ∀ k, k ∈ sales_keys sales_df → summed_quantity sales_df k ≤ m)
  ∧ (sales_df = [] → Enrichment.series_max total = None)
  ∧ ((∀ k, k ∈ sales_keys sales_df → 0 ≤ summed_quantity sales_df k) →
     Forall (λ s, (0 <= Enrichment.popularity_score s)%Q)
       (Enrichment.transform_products products_df sales_df)).
Proof.
  intros total.
  assert (Forall2 (λ e s,
     let sold := Enrichment.series_get total
                   (product_id (Enrichment.e_product e)) in
     (Enrichment.popularity_score s <= 100)%Q
     ∧ (0 ≤ sold → (0 <= Enrichment.popularity_score s)%Q)
     ∧ match Enrichment.series_max total with
       | Some m =>
           if decide (0 < m)
           then Enrichment.popularity_score s
                = (inject_Z sold / inject_Z m * 100)%Q
           else Enrichment.popularity_score s = 0%Q
       | None => Enrichment.popularity_score s = 0%Q
       end
     ∧ (sold = 0 → (Enrichment.popularity_score s == 0)%Q))
    products_df (Enrichment.transform_products products_df sales_df))
    as Hrows.
  { unfold Enrichment.transform_products. fold total.
    induction products_df as [|e l IH]; [constructor|].
    rewrite fmap_cons. constructor; [|exact IH].
    cbn [Enrichment.popularity_score Enrichment.s_row].
    by apply popularity_score_row. }
  split; [exact Hrows|].
  split; [exact (λ k, series_get_summed sales_df k)|].
  split.
  { intros k Hk. simpl. subst total.
    rewrite total_sales_quantity_lookup. by rewrite decide_False. }
  split.
  { intros m Hm. destruct (series_max_spec total m Hm) as [[k Hk] Hle].
    subst total. split.
    - exists k. rewrite total_sales_quantity_lookup in Hk.
      case_decide; [|done]. split; [done|congruence].
    - intros k' Hk'. apply (Hle k').
      rewrite total_sales_quantity_lookup. by rewrite decide_True. }
  split; [by intros ->|].
  intros Hpos. apply Forall_forall. intros s Hs.
  destruct (Forall2_elem_r _ _ _ s Hrows Hs) as (e & _ & _ & Hlow & _).
  apply Hlow.
  destruct (series_get_cases total (product_id (Enrichment.e_product e)))
    as [->|[k Hk]]; [lia|].
  subst total. rewrite total_sales_quantity_lookup in Hk.
  case_decide; [|done]. injection Hk as <-. by apply Hpos.
Qed.

(** Non-negative quantities: the scores are 40 and 100, product 3 has no
    sale and scores 0. *)
Lemma popularity_score_range_witness :
  let products_df :=
    Enrichment.with_defaults
    <$> [mkProduct (CStr "1") None None NNaN;
         mkProduct (CStr "2") None None NNaN;
         mkProduct (CStr "3") None None NNaN] in
  let sales_df :=
    [mkRawSale (Some 1) (Some 1) (Some 1) (Some 4) (Some "2024-06-01");
     mkRawSale (Some 2) (Some 2) (Some 1) (Some 7) (Some "2024-06-02");
     mkRawSale (Some 3) (Some 2) (Some 1) (Some 3) None] in
  ("3" ∉ sales_keys sales_df)
  ∧ Enrichment.series_get (Enrichment.total_sales_quantity sales_df) (CStr "3")
    = 0
  ∧ (∀ k, k ∈ sales_keys sales_df → 0 ≤ summed_quantity sales_df k)
  ∧ Forall (λ s, (0 <= Enrichment.popularity_score s)%Q)
      (Enrichment.transform_products products_df sales_df).
Proof.
  intros products_df sales_df.
  assert ("3" ∉ sales_keys sales_df) as Hout.
  { apply (bool_decide_unpack _). vm_compute. exact I. }
  assert (∀ k, k ∈ sales_keys sales_df → 0 ≤ summed_quantity sales_df k)
    as Hpos.
  { apply Forall_forall. apply (bool_decide_unpack _). vm_compute. exact I. }
  pose proof (popularity_score_range products_df sales_df)
    as (_ & _ & Habsent & _ & _ & Hlow).
  split; [exact Hout|]. split; [exact (Habsent "3" Hout)|].
  split; [exact Hpos|exact (Hlow Hpos)].
Defined.

Example popularity_score_values :
  Enrichment.popularity_score
  <$> Enrichment.transform_products
        (Enrichment.with_defaults
         <$> [mkProduct (CStr "1") None None NNaN;
              mkProduct (CStr "2") None None NNaN;
              mkProduct (CStr "3") None None NNaN])
        [mkRawSale (Some 1) (Some 1) (Some 1) (Some 4) (Some "2024-06-01");
         mkRawSale (Some 2) (Some 2) (Some 1) (Some 7) (Some "2024-06-02");
         mkRawSale (Some 3) (Some 2) (Some 1) (Some 3) None]
  = [(inject_Z 4 / inject_Z 10 * 100)%Q;
     (inject_Z 10 / inject_Z 10 * 100)%Q;
     (inject_Z 0 / inject_Z 10 * 100)%Q].
Proof. reflexivity. Qed.

(** Integer product ids, as the products frame has them when no metadata was
    fetched: the sales aggregate is read by position, so product 1 gets the
    sum of the second key and product 2, past the end, gets 0. *)
Example popularity_score_integer_keys :
  Enrichment.popularity_score
  <$> Enrichment.transform_products
        (Enrichment.with_defaults
         <$> [mkProduct (CInt 1) None None NNaN;
              mkProduct (CInt 2) None None NNaN])
        [mkRawSale (Some 1) (Some 1) (Some 1) (Some 4) (Some "2024-06-01");
         mkRawSale (Some 2) (Some 2) (Some 1) (Some 10) (Some "2024-06-02")]
  = [(inject_Z 10 / inject_Z 10 * 100)%Q;
     (inject_Z 0 / inject_Z 10 * 100)%Q].
Proof. reflexivity. Qed.

(** * Further properties of the pipelines *)

(** ** Duplicates *)

Section dedup_facts.
Context {A K : Type} `{EqDecision K} (key : A → K).

Lemma keep_first_elem (seen : list K) (l : list A) (x : A) :
  x ∈ Dedup.keep_first key seen l → x ∈ l ∧ key x ∉ seen.
Proof.
  revert seen. induction l as [|a l IH]; intros seen; simpl.
  - by intros ?%elem_of_nil.
  - destruct (decide (key a ∈ seen)) as [Hin|Hout].
    + intros [Hx Hs]%IH. split; [by right|done].
    + intros [->|Hx]%elem_of_cons; [split; [left|done]|].
      apply IH in Hx as [Hx Hs]. split; [by right|].
      intros Hk. apply Hs. by right.
Qed.

Lemma keep_first_NoDup (seen : list K) (l : list A) :
  NoDup (key <$> Dedup.keep_first key seen l).
Proof.
  revert seen. induction l as [|a l IH]; intros seen; simpl.
  - constructor.
  - destruct (decide (key a ∈ seen)); [apply IH|].
    rewrite fmap_cons. constructor; [|apply IH].
    intros (y & Hy & Hin)%list_elem_of_fmap.
    apply keep_first_elem in Hin as [_ Hs]. apply Hs. rewrite <- Hy. left.
Qed.

(** The row kept for a key is the first row of that key. *)
Lemma keep_first_first (seen : list K) (l : list A) (x : A) :
  x ∈ l → key x ∉ seen →
  ∃ y l1 l2, l = l1 ++ y :: l2 ∧ key y = key x
             ∧ Forall (λ z, key z ≠ key x) l1
             ∧ y ∈ Dedup.keep_first key seen l.
Proof.
  revert seen. induction l as [|a l IH]; intros seen Hx Hs.
  - by apply elem_of_nil in Hx.
  - destruct (decide (key a = key x)) as [Heq|Hne].
    + exists a, [], l. repeat split; [done|constructor|].
      simpl. rewrite decide_False by (by rewrite Heq). left.
    + apply elem_of_cons in Hx as [->|Hx]; [done|].
      destruct (decide (key a ∈ seen)) as [Hin|Hout].
      * destruct (IH seen Hx Hs) as (y & l1 & l2 & -> & Hk & Hl1 & Hy).
        exists y, (a :: l1), l2. repeat split; [done|by constructor|].
        simpl. by rewrite decide_True.
      * destruct (IH (key a :: seen) Hx) as (y & l1 & l2 & -> & Hk & Hl1 & Hy).
        { intros [Hk|Hk]%elem_of_cons; [by apply Hne|done]. }
        exists y, (a :: l1), l2. repeat split; [done|by constructor|].
        simpl. rewrite decide_False by done. by right.
Qed.

Lemma drop_duplicates_last_elem (l : list A) (x : A) :
  x ∈ Dedup.drop_duplicates_last key l → x ∈ l.
Proof.
  induction l as [|a l IH]; simpl; [done|].
  destruct (decide (key a ∈ key <$> l)).
  - intros Hx. right. by apply IH.
  - intros [->|Hx]%elem_of_cons; [left|right; by apply IH].
Qed.

Lemma drop_duplicates_last_NoDup (l : list A) :
  NoDup (key <$> Dedup.drop_duplicates_last key l).
Proof.
  induction l as [|a l IH]; simpl; [constructor|].
  destruct (decide (key a ∈ key <$> l)) as [Hin|Hout]; [done|].
  rewrite fmap_cons. constructor; [|done].
  intros (y & Hy & Hin)%list_elem_of_fmap. apply Hout.
  rewrite Hy. apply list_elem_of_fmap_2. by apply drop_duplicates_last_elem.
Qed.

(** On a sorted frame the row kept for a key is the greatest of that key. *)
Lemma drop_duplicates_last_greatest (R : relation A) `{!Reflexive R}
    (l : list A) (x : A) :
  StronglySorted R l → x ∈ l →
  ∃ y, y ∈ Dedup.drop_duplicates_last key l ∧ key y = key x ∧ R x y.
Proof.
  revert x. induction l as [|a l IH]; intros x Hsorted Hx.
  - by apply elem_of_nil in Hx.
  - apply StronglySorted_inv in Hsorted as [Hsorted Hall].
    rewrite Forall_forall in Hall.
    assert (∀ z, z ∈ l → ∃ y, y ∈ Dedup.drop_duplicates_last key (a :: l)
                              ∧ key y = key z ∧ R z y) as Htail.
    { intros z Hz. destruct (IH z Hsorted Hz) as (y & Hy & Hk & HR).
      exists y. split; [|done]. simpl.
      destruct (decide (key a ∈ key <$> l)); [done|by right]. }
    apply elem_of_cons in Hx as [->|Hx]; [|by apply Htail].
    destruct (decide (key a ∈ key <$> l)) as [Hin|Hout] eqn:Hdec.
    + destruct (proj1 (list_elem_of_fmap _ _ _) Hin) as (z & Hz & Hzl).
      destruct (Htail z Hzl) as (y & Hy & Hk & HR).
      exists y. split; [done|]. split; [congruence|].
      apply Hall. eapply drop_duplicates_last_elem.
      simpl in Hy. by rewrite Hdec in Hy.
    + exists a. split; [|done]. simpl. rewrite Hdec. left.
Qed.
End dedup_facts.

Lemma keep_first_iff {A K} `{EqDecision K} (key : A → K) (seen : list K)
    (l : list A) (x : A) :
  x ∈ Dedup.keep_first key seen l ↔ (key x ∉ seen) ∧ first_of_key key l x.
Proof.
  split.
  - revert seen. induction l as [|a l IH]; intros seen; simpl.
    + by intros ?%elem_of_nil.
    + destruct (decide (key a ∈ seen)) as [Hin|Hout].
      * intros (Hs & l1 & l2 & -> & Hl1)%IH. split; [done|].
        exists (a :: l1), l2. split; [done|]. constructor; [|done].
        intros Heq. apply Hs. by rewrite <- Heq.
      * intros [->|Hx]%elem_of_cons.
        { split; [done|]. by exists [], l. }
        apply IH in Hx as (Hs & l1 & l2 & -> & Hl1).
        split; [intros Hk; apply Hs; by right|].
        exists (a :: l1), l2. split; [done|]. constructor; [|done].
        intros Heq. apply Hs. rewrite Heq. left.
  - intros (Hs & l1 & l2 & -> & Hl1). revert seen Hs.
    induction l1 as [|a l1 IH]; intros seen Hs; simpl.
    + rewrite decide_False by done. left.
    + apply Forall_cons in Hl1 as [Ha Hl1].
      destruct (decide (key a ∈ seen)); [by apply IH|].
      right. apply IH; [done|].
      intros [Hk|Hk]%elem_of_cons; [by apply Ha|done].
Qed.

(** ** load_data.py: [clean_customers] and [etl_pipeline] *)

Lemma clean_email_valid (x : string) :
  has_at_and_dot (LoadPipeline.clean_email x).
Proof.
  unfold LoadPipeline.clean_email, has_at_and_dot.
  destruct (Customers.contains_char "@" x) eqn:Hat;
    destruct (Customers.contains_char "." x) eqn:Hdot; simpl;
    by (split; first [assumption | vm_compute; reflexivity]).
Qed.

Lemma clean_customers_None (df : list Customers.customer) :
  LoadPipeline.clean_customers df = None
  ↔ ∃ c, first_of_key Customers.customer_id df c ∧ Customers.email c = None.
Proof.
  unfold LoadPipeline.clean_customers, Dedup.drop_duplicates_first.
  rewrite mapM_None, Exists_exists. split.
  - intros (c & Hc & Hf). exists c.
    apply keep_first_iff in Hc as [_ Hc]. split; [done|].
    by destruct (Customers.email c).
  - intros (c & Hc & He). exists c. split.
    + apply keep_first_iff. split; [apply not_elem_of_nil|done].
    + by rewrite He.
Qed.

(** X1. [clean_customers] fails exactly when the first row of some
    customer_id has no email.  When it succeeds, the result has one row per
    customer_id of the input, built from the first row of that id: the name
    is kept, the country is filled, and the email is kept when it holds both
    an at sign and a dot and is invalid@example.com otherwise, so every
    email of the result holds both. *)
Theorem clean_customers_first_rows (df : list Customers.customer) :
  (LoadPipeline.clean_customers df = None
   ↔ ∃ c, first_of_key Customers.customer_id df c ∧ Customers.email c = None)
  ∧ ∀ out, LoadPipeline.clean_customers df = Some out →
      NoDup (Customers.customer_id <$> out)
      ∧ (∀ c, c ∈ df →
              Customers.customer_id c ∈ Customers.customer_id <$> out)
      ∧ Forall (λ o,
           ∃ c x, first_of_key Customers.customer_id df c
                  ∧ Customers.email c = Some x
                  ∧ Customers.customer_id o = Customers.customer_id c
                  ∧ Customers.name o = Customers.name c
                  ∧ Customers.country o
                    = Some (default "Unknown" (Customers.country c))
                  ∧ Customers.email o
                    = Some (if Customers.contains_char "@" x
                               && Customers.contains_char "." x
                            then x else "invalid@example.com")
                  ∧ has_at_and_dot (LoadPipeline.clean_email x)) out.
Proof.
  split; [apply clean_customers_None|].
  unfold LoadPipeline.clean_customers, Dedup.drop_duplicates_first.
  - intros out Hout%mapM_Some.
    assert (Forall2 (λ c o,
              Customers.customer_id o = Customers.customer_id c
              ∧ ∃ x, Customers.email c = Some x
                     ∧ Customers.name o = Customers.name c
                     ∧ Customers.country o
                       = Some (default "Unknown" (Customers.country c))
                     ∧ Customers.email o = Some (LoadPipeline.clean_email x))
              (Dedup.keep_first Customers.customer_id [] df) out) as Hrows.
    { eapply Forall2_impl; [exact Hout|]. intros c o Hco. simpl in Hco.
      destruct (Customers.email c) as [x|]; [|done].
      injection Hco as <-. split; [done|]. by exists x. }
    assert (Customers.customer_id <$> out
            = Customers.customer_id
              <$> Dedup.keep_first Customers.customer_id [] df) as Hids.
    { clear Hout. induction Hrows as [|c o l k [Hid _] _ IH]; [done|].
      by rewrite !fmap_cons, Hid, IH. }
    split; [|split].
    + rewrite Hids. apply keep_first_NoDup.
    + intros c Hc. rewrite Hids.
      destruct (keep_first_first Customers.customer_id [] df c Hc)
        as (y & _ & _ & _ & Hk & _ & Hy); [apply not_elem_of_nil|].
      rewrite <- Hk. by apply list_elem_of_fmap_2.
    + apply Forall_forall. intros o Ho.
      destruct (Forall2_elem_r _ _ _ o Hrows Ho)
        as (c & Hc & Hid & x & Hx & Hn & Hco & He).
      exists c, x. apply keep_first_iff in Hc as [_ Hc].
      repeat split; try done. apply clean_email_valid.
      apply clean_email_valid.
Qed.

(** Four rows, the id 3 twice: the second row of id 3 is dropped, the email
    without an at sign is replaced. *)
Lemma clean_customers_first_rows_witness :
  let df :=
    [Customers.mkCustomer (Some 3) (Some "Ann Lee") (Some "ann@x.org") None;
     Customers.mkCustomer (Some 1) (Some "Bo") (Some "bo.x.org") (Some "FR");
     Customers.mkCustomer (Some 3) (Some "Ann L") None (Some "US")] in
  let out :=
    [Customers.mkCustomer (Some 3) (Some "Ann Lee") (Some "ann@x.org")
       (Some "Unknown");
     Customers.mkCustomer (Some 1) (Some "Bo") (Some "invalid@example.com")
       (Some "FR")] in
  LoadPipeline.clean_customers df = Some out
  ∧ NoDup (Customers.customer_id <$> out).
Proof.
  intros df out.
  assert (LoadPipeline.clean_customers df = Some out) as Hout by reflexivity.
  split; [exact Hout|].
  exact (proj1 (proj2 (clean_customers_first_rows df) out Hout)).
Defined.

(** X2. [etl_pipeline] cleans the three frames before it writes anything:
    when the first row of some customer_id has no email, cleaning raises and
    no table is touched, whatever the database would take.  Otherwise the
    tables are loaded in the order products, customers, sales, each load on
    its own: a table holds its cleaned frame exactly when neither its load
    nor an earlier one was refused, and is as it was otherwise, so a refused
    load leaves the earlier tables replaced and the later ones untouched.
    When no load is refused the three tables hold the cleaned frames whatever
    they held before, the sales table has one row per row of the sales file,
    and a second such run changes nothing. *)
Theorem etl_pipeline_loads_in_order
    (refused : LoadPipeline.table_name → bool)
    (products : list product) (customers : list Customers.customer)
    (sales : list raw_sale) (db : LoadPipeline.tables) :
  ((∃ c, first_of_key Customers.customer_id customers c
         ∧ Customers.email c = None) →
   LoadPipeline.etl_pipeline refused products customers sales db = db)
  ∧ ((∀ c, first_of_key Customers.customer_id customers c
           → is_Some (Customers.email c)) →
     ∃ cleaned,
       LoadPipeline.clean_customers customers = Some cleaned
       ∧ let db' := LoadPipeline.etl_pipeline refused products customers
                      sales db in
         LoadPipeline.products_table db'
         = (if refused LoadPipeline.Products
            then LoadPipeline.products_table db
            else LoadData.clean_products products)
         ∧ LoadPipeline.customers_table db'
           = (if refused LoadPipeline.Products
                 || refused LoadPipeline.Customers
              then LoadPipeline.customers_table db
              else cleaned)
         ∧ LoadPipeline.sales_table db'
           = (if refused LoadPipeline.Products
                 || refused LoadPipeline.Customers
                 || refused LoadPipeline.Sales
              then LoadPipeline.sales_table db
              else LoadData.clean_sales sales)
         ∧ ((∀ t, refused t = false) →
            length (LoadPipeline.sales_table db') = length sales
            ∧ (∀ other,
                 LoadPipeline.etl_pipeline refused products customers sales
                   other = db')
            ∧ LoadPipeline.etl_pipeline refused products customers sales db'
              = db')).
Proof.
  split.
  - intros Hnone%clean_customers_None.
    unfold LoadPipeline.etl_pipeline. by rewrite Hnone.
  - intros Hall.
    destruct (LoadPipeline.clean_customers customers) as [cs|] eqn:Hcs.
    + exists cs. split; [done|].
      unfold LoadPipeline.etl_pipeline, LoadPipeline.load_to_db.
      rewrite Hcs.
      destruct (refused LoadPipeline.Products) eqn:Hp;
        destruct (refused LoadPipeline.Customers) eqn:Hc;
        destruct (refused LoadPipeline.Sales) eqn:Hs; simpl;
        (split; [done|]); (split; [done|]); (split; [done|]);
        intros Hnever;
        try (rewrite (Hnever LoadPipeline.Products) in Hp; discriminate);
        try (rewrite (Hnever LoadPipeline.Customers) in Hc; discriminate);
        try (rewrite (Hnever LoadPipeline.Sales) in Hs; discriminate).
      split; [|done]. unfold LoadData.clean_sales. apply length_fmap.
    + apply clean_customers_None in Hcs as (c & Hc & He).
      destruct (Hall c Hc) as [x Hx]. congruence.
Qed.

Lemma etl_pipeline_loads_in_order_witness :
  let customers :=
    [Customers.mkCustomer (Some 1) (Some "Bo") (Some "bo@x.org")
       (Some "FR")] in
  let products := [mkProduct (CInt 1) None (Some "Toys") (NStr "abc")] in
  let db := LoadPipeline.mkTables
              [mkProduct (CInt 9) (Some "old") (Some "Books") (NNum 1)]
              [] [] in
  let refused (t : LoadPipeline.table_name) :=
    match t with LoadPipeline.Customers => true | _ => false end in
  (∀ c, first_of_key Customers.customer_id customers c
        → is_Some (Customers.email c))
  ∧ (let db' := LoadPipeline.etl_pipeline refused products customers [] db in
     LoadPipeline.products_table db' = LoadData.clean_products products
     ∧ LoadPipeline.customers_table db' = LoadPipeline.customers_table db
     ∧ LoadPipeline.sales_table db' = LoadPipeline.sales_table db).
Proof.
  intros customers products db refused.
  assert (∀ c, first_of_key Customers.customer_id customers c
               → is_Some (Customers.email c)) as Hall.
  { intros c (l1 & l2 & Heq & _).
    assert (c ∈ customers) as Hc.
    { rewrite Heq. apply elem_of_app. right. left. }
    apply list_elem_of_singleton in Hc as ->. by eexists. }
  split; [exact Hall|].
  destruct (proj2 (etl_pipeline_loads_in_order refused products customers []
                     db) Hall) as (cleaned & _ & Hp & Hc & Hs & _).
  split; [exact Hp|]. split; [exact Hc|exact Hs].
Defined.

(** ** etl_pipeline_with_validations.py: prices, revenue and the load *)

(** The validated frame, row by row, from the accepted input rows. *)
Lemma validate_sales_data_accepted df vp vc prices :
  Validation.validate_sales_data df vp vc prices
  = (λ r, Validation.add_price_revenue prices (Validation.repair_row r))
    <$> filter (accepted vp vc) df.
Proof.
  unfold Validation.validate_sales_data, Validation.keep_referenced,
    Validation.repair_quantities, Validation.dropna_critical.
  rewrite filter_fmap, list_filter_filter, <- list_fmap_compose.
  f_equal. apply list_filter_iff. intros r. unfold accepted. simpl.
  split; [tauto|]. intros (Hp & Hc & Hd). repeat split; try done.
  - destruct Hp as (p & -> & _). by eexists.
  - destruct Hc as (c & -> & _). by eexists.
Qed.

(** X3. [validate_sales_data] returns one row for every input row that has
    its critical fields and valid keys, in order, whatever the price mapping
    holds: the row carries the repaired quantity, the price the mapping holds
    for its product_id and revenue = repaired quantity * price.  A
    product_id that is valid but absent from the price mapping does not
    remove the row: it is returned with a null price and a null revenue. *)
Theorem validate_sales_data_price_revenue
    (df : list sale) (valid_product_ids valid_customer_ids : list Z)
    (product_prices : gmap Z Q) :
  Forall2 (λ r v,
     Validation.v_sale v = Validation.repair_row r
     ∧ ∃ p, sale_product_id r = Some p
            ∧ p ∈ valid_product_ids
            ∧ Validation.v_price v = product_prices !! p
            ∧ Validation.v_revenue v
              = match product_prices !! p with
                | Some x =>
                    Some (inject_Z (repair_quantity (quantity r)) * x)%Q
                | None => None
                end)
    (filter (accepted valid_product_ids valid_customer_ids) df)
    (Validation.validate_sales_data df valid_product_ids valid_customer_ids
       product_prices)
  ∧ length (Validation.validate_sales_data df valid_product_ids
              valid_customer_ids product_prices)
    = length (filter (accepted valid_product_ids valid_customer_ids) df).
Proof.
  rewrite validate_sales_data_accepted. split; [|apply length_fmap].
  apply Forall2_fmap_r, Forall_Forall2_diag, Forall_forall.
  intros r [((p & Hp & Hin) & _) _]%list_elem_of_filter.
  split; [done|]. exists p. simpl. rewrite Hp. simpl.
  repeat split; done.
Qed.

Example validate_sales_data_price_missing :
  Validation.validate_sales_data
    (parse_dates [mkRawSale (Some 5) (Some 2) (Some 7) (Some 0)
                    (Some "2024-03-04")])
    [1; 2] [7] {[1 := 10%Q]}
  = [Validation.mkValidatedSale
       (mkSale (Some 5) (Some 2) (Some 7) (Some 1) (Some (mkDate 2024 3 4)))
       None None].
Proof. reflexivity. Qed.

(** The dictionary built from the products table has a price for every
    product_id of the table, and each price it holds is a price of the table. *)
Lemma to_dict_lookup (products_df : list (Z * Q)) (k : Z) :
  (k ∈ fst <$> products_df → is_Some (ValidatedLoad.to_dict products_df !! k))
  ∧ ∀ x, ValidatedLoad.to_dict products_df !! k = Some x
         → (k, x) ∈ products_df.
Proof.
  unfold ValidatedLoad.to_dict.
  assert (∀ (d : gmap Z Q),
            ((k ∈ fst <$> products_df ∨ is_Some (d !! k)) →
             is_Some (foldl (λ d row, <[row.1 := row.2]> d) d products_df !! k))
            ∧ ∀ x, foldl (λ d row, <[row.1 := row.2]> d) d products_df !! k
                   = Some x → (k, x) ∈ products_df ∨ d !! k = Some x) as Hgen.
  { induction products_df as [|[k' x'] l IH]; intros d; simpl.
    - split; [|by right]. intros [Hk|Hd]; [|done]. by apply elem_of_nil in Hk.
    - destruct (IH (<[k' := x']> d)) as [IH1 IH2]. split.
      + intros [Hk|Hd]; apply IH1.
        * apply elem_of_cons in Hk as [->|Hk]; [right|by left].
          rewrite lookup_insert_eq. by eexists.
        * right. destruct (decide (k' = k)) as [->|Hne].
          -- rewrite lookup_insert_eq. by eexists.
          -- by rewrite lookup_insert_ne.
      + intros x Hx. destruct (IH2 x Hx) as [Hin|Hd]; [left; by right|].
        destruct (decide (k' = k)) as [->|Hne].
        * rewrite lookup_insert_eq in Hd. injection Hd as ->. left. left.
        * rewrite lookup_insert_ne in Hd by done. by right. }
  destruct (Hgen ∅) as [H1 H2]. split.
  - intros Hk. apply H1. by left.
  - intros x Hx. destruct (H2 x Hx) as [Hin|Hd]; [done|].
    by rewrite lookup_empty in Hd.
Qed.

Lemma validated_rows_accepted (csv : list raw_sale) (s : ValidatedLoad.db) :
  ValidatedLoad.validated_rows csv s
  = Validation.repair_row
    <$> filter (accepted (fst <$> ValidatedLoad.products s)
                  (ValidatedLoad.customers s))
          (parse_dates csv).
Proof. apply validate_sales_data_rows. Qed.

(** X4. [load_sales_data] leaves the products and customers tables alone.
    It offers the sales table the rows of the file that have their critical
    fields and reference an existing product and customer, quantities
    repaired; the table gains exactly these rows when the database takes
    them, and stays as it was when the database refuses them.  If every row
    of the sales table referenced existing rows before, every row does
    after.  The load is not gated by any watermark: a second run on the same
    file offers the same rows again, and appends them a second time when the
    database takes them again. *)
Theorem load_sales_data_appends (accepts : list sale → list sale → bool)
    (csv : list raw_sale) (s : ValidatedLoad.db) :
  let s' := ValidatedLoad.load_sales_data accepts csv s in
  let new := Validation.repair_row
             <$> filter (accepted (fst <$> ValidatedLoad.products s)
                           (ValidatedLoad.customers s))
                   (parse_dates csv) in
  ValidatedLoad.products s' = ValidatedLoad.products s
  ∧ ValidatedLoad.customers s' = ValidatedLoad.customers s
  ∧ ValidatedLoad.sales s'
    = (if accepts (ValidatedLoad.sales s) new
       then ValidatedLoad.sales s ++ new
       else ValidatedLoad.sales s)
  ∧ Forall (references s) new
  ∧ (Forall (references s) (ValidatedLoad.sales s)
     → Forall (references s') (ValidatedLoad.sales s'))
  ∧ ValidatedLoad.sales (ValidatedLoad.load_sales_data accepts csv s')
    = (if accepts (ValidatedLoad.sales s') new
       then ValidatedLoad.sales s' ++ new
       else ValidatedLoad.sales s').
Proof.
  intros s' new.
  assert (Forall (references s) new) as Hnew.
  { subst new. apply Forall_fmap, Forall_forall.
    intros r [(Hp & Hc & _) _]%list_elem_of_filter. by split. }
  assert (∀ t, ValidatedLoad.products t = ValidatedLoad.products s →
               ValidatedLoad.customers t = ValidatedLoad.customers s →
               let t' := ValidatedLoad.load_sales_data accepts csv t in
               ValidatedLoad.products t' = ValidatedLoad.products s
               ∧ ValidatedLoad.customers t' = ValidatedLoad.customers s
               ∧ ValidatedLoad.sales t'
                 = (if accepts (ValidatedLoad.sales t) new
                    then ValidatedLoad.sales t ++ new
                    else ValidatedLoad.sales t)) as Hload.
  { intros t Hp Hc.
    unfold ValidatedLoad.load_sales_data, ValidatedLoad.to_sql_append.
    rewrite validated_rows_accepted, Hp, Hc. fold new.
    by destruct (accepts (ValidatedLoad.sales t) new). }
  destruct (Hload s eq_refl eq_refl) as (Hp & Hc & Hs). fold s' in Hp, Hc, Hs.
  split; [done|]. split; [done|]. split; [done|]. split; [done|]. split.
  - intros Hold. rewrite Hs. unfold references. rewrite Hp, Hc.
    destruct (accepts (ValidatedLoad.sales s) new); [|done].
    apply Forall_app. by split.
  - by destruct (Hload s' Hp Hc) as (_ & _ & ->).
Qed.

Lemma load_sales_data_appends_witness :
  let s := ValidatedLoad.mkDb [(1, 10%Q)] [7]
             [mkSale (Some 1) (Some 1) (Some 7) (Some 2)
                (Some (mkDate 2024 1 1))] in
  let csv :=
    [mkRawSale (Some 5) (Some 1) (Some 7) (Some (-3)) (Some "2024-03-04");
     mkRawSale (Some 6) (Some 2) (Some 7) (Some 1) (Some "2024-03-05")] in
  let accepts (table rows : list sale) :=
    bool_decide (NoDup (transaction_id <$> table ++ rows)) in
  Forall (references s) (ValidatedLoad.sales s)
  ∧ Forall (references (ValidatedLoad.load_sales_data accepts csv s))
      (ValidatedLoad.sales (ValidatedLoad.load_sales_data accepts csv s))
  ∧ length (ValidatedLoad.sales (ValidatedLoad.load_sales_data accepts csv s))
    = 2%nat
  ∧ ValidatedLoad.load_sales_data accepts csv
      (ValidatedLoad.load_sales_data accepts csv s)
    = ValidatedLoad.load_sales_data accepts csv s.
Proof.
  intros s csv accepts.
  assert (Forall (references s) (ValidatedLoad.sales s)) as Hold.
  { constructor; [|constructor]. split.
    - exists 1. split; [reflexivity|left].
    - exists 7. split; [reflexivity|left]. }
  split; [exact Hold|]. split; [|split; reflexivity].
  exact (proj1 (proj2 (proj2 (proj2 (proj2
           (load_sales_data_appends accepts csv s))))) Hold).
Defined.

(** X5. Inside [load_sales_data] the price lookup never misses: the valid
    product ids and the price dictionary are read from the same products
    table, so every validated row has a price, which is a price of that table
    for its product_id, and a revenue. *)
Theorem load_sales_data_prices_resolved
    (csv : list raw_sale) (s : ValidatedLoad.db) :
  Forall (λ v,
     ∃ p x, sale_product_id (Validation.v_sale v) = Some p
            ∧ (p, x) ∈ ValidatedLoad.products s
            ∧ Validation.v_price v = Some x
            ∧ is_Some (Validation.v_revenue v))
    (Validation.validate_sales_data (parse_dates csv)
       (fst <$> ValidatedLoad.products s) (ValidatedLoad.customers s)
       (ValidatedLoad.to_dict (ValidatedLoad.products s))).
Proof.
  unfold Validation.validate_sales_data. apply Forall_fmap, Forall_forall.
  intros r [[(p & Hp & Hin) _] Hr]%list_elem_of_filter.
  apply list_elem_of_fmap in Hr as (r0 & -> & _). simpl in *.
  destruct (to_dict_lookup (ValidatedLoad.products s) p) as [Hsome Hprice].
  destruct (Hsome Hin) as [x Hx].
  exists p, x. rewrite Hp. simpl. rewrite Hx. simpl.
  repeat split; [by apply Hprice|by eexists].
Qed.

(** ** incremental_pipeline.py: what the sales table holds *)

Lemma process_sales_data_appends (accepts : list sale → list sale → bool)
    (csv : list raw_sale) (s : Incremental.db) :
  ∃ added,
    Incremental.sales_table (Incremental.process_sales_data accepts csv s)
    = Incremental.sales_table s ++ added
    ∧ Forall (λ r, is_Some (transaction_date r) ∧ r ∈ parse_dates csv) added.
Proof.
  destruct (Incremental.get_last_processed_date s) as [w|] eqn:Hw.
  - exists []. rewrite (process_sales_data_stored accepts csv s w Hw).
    by rewrite app_nil_r.
  - rewrite (process_sales_data_table accepts csv s Hw).
    destruct (accepts _ _).
    + eexists. split; [done|]. apply Forall_forall.
      by intros r [Hd Hr]%list_elem_of_filter.
    + exists []. by rewrite app_nil_r.
Qed.

Lemma runs_etl_state (accepts : list sale → list sale → bool)
    (files : list (list raw_sale)) (s : Incremental.db) :
  Incremental.etl_state (Incremental.runs accepts files s)
  = Incremental.etl_state s.
Proof.
  unfold Incremental.runs. revert s.
  induction files as [|csv files IH]; intros s; [done|]. simpl.
  by rewrite IH, process_sales_data_etl_state.
Qed.

Lemma runs_stored (accepts : list sale → list sale → bool)
    (files : list (list raw_sale)) (s : Incremental.db) (w : date) :
  Incremental.get_last_processed_date s = Some w →
  Incremental.runs accepts files s = s.
Proof.
  intros Hw. unfold Incremental.runs.
  induction files as [|csv files IH]; [done|]. simpl.
  by rewrite (process_sales_data_stored accepts csv s w Hw).
Qed.

Lemma runs_appends (accepts : list sale → list sale → bool)
    (files : list (list raw_sale)) (s : Incremental.db) :
  ∃ added,
    Incremental.sales_table (Incremental.runs accepts files s)
    = Incremental.sales_table s ++ added
    ∧ Forall (λ r, is_Some (transaction_date r)
                   ∧ ∃ csv, csv ∈ files ∧ r ∈ parse_dates csv) added.
Proof.
  unfold Incremental.runs. revert s.
  induction files as [|csv files IH]; intros s; simpl.
  - exists []. by rewrite app_nil_r.
  - destruct (IH (Incremental.process_sales_data accepts csv s))
      as (rest & -> & Hrest).
    destruct (process_sales_data_appends accepts csv s)
      as (added & -> & Hadded).
    exists (added ++ rest). split; [by rewrite app_assoc|].
    apply Forall_app. split.
    + eapply Forall_impl; [exact Hadded|]. intros r [Hd Hr].
      split; [done|]. exists csv. split; [left|done].
    + eapply Forall_impl; [exact Hrest|]. intros r [Hd (f & Hf & Hr)].
      split; [done|]. exists f. split; [by right|done].
Qed.

Lemma runs_all_accepted (accepts : list sale → list sale → bool)
    (files : list (list raw_sale)) (s : Incremental.db) :
  Incremental.get_last_processed_date s = None →
  (∀ table rows, accepts table rows = true) →
  Incremental.sales_table (Incremental.runs accepts files s)
  = Incremental.sales_table s
    ++ (files ≫= λ csv, Incremental.dropna_date (parse_dates csv)).
Proof.
  intros Hw Hacc. unfold Incremental.runs. revert s Hw.
  induction files as [|csv files IH]; intros s Hw; simpl.
  - by rewrite app_nil_r.
  - rewrite IH.
    + rewrite (process_sales_data_table accepts csv s Hw), Hacc.
      by rewrite <- app_assoc.
    + unfold Incremental.get_last_processed_date in *.
      by rewrite process_sales_data_etl_state.
Qed.

(** X6. Whatever files are run, in whatever order, and whatever the
    database takes: the watermark table after the runs is the watermark
    table before them, and the sales table has only grown, by rows of the
    files that have a transaction_date.  With a watermark stored the runs
    change nothing at all.  With none stored, on tables that take every row,
    every run appends every dated row of its file, whether an earlier run
    loaded it or not. *)
Theorem runs_only_append_dated_rows
    (accepts : list sale → list sale → bool)
    (files : list (list raw_sale)) (s : Incremental.db) :
  let s' := Incremental.runs accepts files s in
  Incremental.etl_state s' = Incremental.etl_state s
  ∧ (∃ added,
       Incremental.sales_table s' = Incremental.sales_table s ++ added
       ∧ Forall (λ r, is_Some (transaction_date r)
                      ∧ ∃ csv, csv ∈ files ∧ r ∈ parse_dates csv) added)
  ∧ (is_Some (Incremental.get_last_processed_date s) → s' = s)
  ∧ (Incremental.get_last_processed_date s = None →
     (∀ table rows, accepts table rows = true) →
     Incremental.sales_table s'
     = Incremental.sales_table s
       ++ (files ≫= λ csv, Incremental.dropna_date (parse_dates csv))).
Proof.
  intros s'. split; [apply runs_etl_state|].
  split; [apply runs_appends|]. split.
  - intros [w Hw]. by eapply runs_stored.
  - apply runs_all_accepted.
Qed.

Lemma runs_only_append_dated_rows_witness :
  let csv :=
    [mkRawSale (Some 1) (Some 1) (Some 1) (Some 2) (Some "2024-05-20");
     mkRawSale (Some 2) (Some 1) (Some 1) (Some 1) (Some "InvalidDate");
     mkRawSale (Some 3) (Some 2) (Some 1) (Some 4) (Some "2024-06-01")] in
  let accepts (table rows : list sale) := true in
  let s := Incremental.mkDb [] ∅ in
  Incremental.get_last_processed_date s = None
  ∧ (∀ table rows, accepts table rows = true)
  ∧ transaction_id
    <$> Incremental.sales_table (Incremental.runs accepts [csv; csv] s)
    = [Some 1; Some 3; Some 1; Some 3].
Proof.
  intros csv accepts s.
  assert (Incremental.get_last_processed_date s = None) as Hw
    by reflexivity.
  assert (∀ table rows, accepts table rows = true) as Hacc by done.
  split; [exact Hw|]. split; [exact Hacc|].
  rewrite (proj2 (proj2 (proj2
             (runs_only_append_dated_rows accepts [csv; csv] s))) Hw Hacc).
  reflexivity.
Defined.

(** ** Enricher and fetcher *)

(** X8. Whatever the metadata holds, every row [enrich_product_data] returns
    has a description, a rating and an availability_status (none is null),
    and its product columns are those of an input row: name, category and
    price are never changed, and the product_id is either untouched or
    replaced by its normalised text. *)
Theorem enrich_product_data_totality
    (products_df : list product) (metadata_df : Enrichment.metadata) :
  Forall (λ e,
     is_Some (Enrichment.e_description e)
     ∧ is_Some (Enrichment.e_rating e)
     ∧ is_Some (Enrichment.e_availability_status e)
     ∧ ∃ p, p ∈ products_df
            ∧ product_name (Enrichment.e_product e) = product_name p
            ∧ category (Enrichment.e_product e) = category p
            ∧ price (Enrichment.e_product e) = price p
            ∧ (product_id (Enrichment.e_product e) = product_id p
               ∨ product_id (Enrichment.e_product e)
                 = CStr (normalize_key (product_id p))))
    (Enrichment.enrich_product_data products_df metadata_df).
Proof.
  unfold Enrichment.enrich_product_data.
  destruct (Enrichment.rows metadata_df) as [|m ms].
  - apply Forall_fmap, Forall_forall. intros p Hp. simpl.
    repeat split; try by eexists. exists p. repeat split; try done. by left.
  - apply Forall_fmap, Forall_forall. intros e He. simpl.
    repeat split; try by eexists.
    unfold Enrichment.merge_left in He.
    apply list_elem_of_bind in He as (p' & He & Hp').
    apply list_elem_of_fmap in Hp' as (p & -> & Hp).
    exists p.
    assert (Enrichment.e_product e = Enrichment.normalize_product p) as ->.
    { destruct (Enrichment.matches _ _) as [|m0 ms0].
      - by apply list_elem_of_singleton in He as ->.
      - by apply list_elem_of_fmap in He as (m' & -> & _). }
    simpl. repeat split; try done. by right.
Qed.

Lemma filter_key_unique {A K} `{EqDecision K} (key : A → K) (l : list A)
    (x : A) :
  NoDup (key <$> l) → x ∈ l → filter (λ y, key y = key x) l = [x].
Proof.
  induction l as [|a l IH]; [by intros _ ?%elem_of_nil|].
  rewrite fmap_cons. intros [Ha Hl]%NoDup_cons [->|Hx]%elem_of_cons.
  - rewrite filter_cons_True by done. f_equal.
    apply filter_none. intros y Hy Heq. apply Ha. rewrite <- Heq.
    by apply list_elem_of_fmap_2.
  - rewrite filter_cons_False; [by apply IH|].
    intros Heq. apply Ha. rewrite Heq. by apply list_elem_of_fmap_2.
Qed.

Lemma matches_filter (p : product) (metas : list Enrichment.meta_row) :
  Enrichment.matches (Enrichment.normalize_product p)
    (Enrichment.normalize_meta <$> metas)
  = Enrichment.normalize_meta
    <$> filter (λ m, meta_key m = product_key p) metas.
Proof.
  unfold Enrichment.matches. rewrite filter_fmap. f_equal.
  apply list_filter_iff. intros m. simpl. unfold meta_key, product_key.
  split; congruence.
Qed.

(** X9. With non-empty metadata whose normalised ids are pairwise distinct,
    [enrich_product_data] is a lookup: it returns one row per product, in
    order; a product whose key is the id of a record gets that record's
    product_id_api, description, rating and availability_status, each null
    field replaced by its default; a product whose key is no record's id gets
    the three defaults. *)
Theorem enrich_product_data_lookup
    (products_df : list product) (metadata_df : Enrichment.metadata) :
  Enrichment.rows metadata_df ≠ [] →
  NoDup (meta_key <$> Enrichment.rows metadata_df) →
  Forall2 (λ p e,
     Enrichment.e_product e = Enrichment.normalize_product p
     ∧ (∀ m, m ∈ Enrichment.rows metadata_df → meta_key m = product_key p →
          Enrichment.e_product_id_api e = Enrichment.meta_product_id_api m
          ∧ Enrichment.e_description e
            = Some (default "No description available"
                      (Enrichment.meta_description m))
          ∧ Enrichment.e_rating e
            = Some (default 0%Q (Enrichment.meta_rating m))
          ∧ Enrichment.e_availability_status e
            = Some (default "Unknown" (Enrichment.meta_availability_status m)))
     ∧ ((∀ m, m ∈ Enrichment.rows metadata_df → meta_key m ≠ product_key p) →
          Enrichment.e_product_id_api e = None
          ∧ Enrichment.e_description e = Some "No description available"
          ∧ Enrichment.e_rating e = Some 0%Q
          ∧ Enrichment.e_availability_status e = Some "Unknown"))
    products_df (Enrichment.enrich_product_data products_df metadata_df).
Proof.
  intros Hne Hnodup. unfold Enrichment.enrich_product_data.
  destruct (Enrichment.rows metadata_df) as [|m0 ms0] eqn:Hrows; [done|].
  clear Hne. revert Hnodup. generalize (m0 :: ms0). clear. intros metas Hnodup.
  unfold Enrichment.merge_left.
  induction products_df as [|p l IH]; [constructor|].
  rewrite fmap_cons, bind_cons, fmap_app, matches_filter.
  pose proof (filter_key_NoDup meta_key (product_key p) metas Hnodup) as Hlen.
  destruct (filter (λ m, meta_key m = product_key p) metas)
    as [|m [|m' ms]] eqn:Hf; [| |simpl in Hlen; lia].
  - simpl. constructor; [|exact IH]. split; [done|]. split; [|done].
    intros m Hm Hk. exfalso.
    assert (m ∈ filter (λ m, meta_key m = product_key p) metas) as Hin
      by (by apply list_elem_of_filter).
    rewrite Hf in Hin. by apply elem_of_nil in Hin.
  - simpl. constructor; [|exact IH]. split; [done|].
    assert (m ∈ metas ∧ meta_key m = product_key p) as [Hm Hmk].
    { assert (m ∈ filter (λ m, meta_key m = product_key p) metas) as Hin
        by (rewrite Hf; left).
      by apply list_elem_of_filter in Hin as [? ?]. }
    split.
    + intros m1 Hm1 Hk1.
      assert (m1 ∈ filter (λ m, meta_key m = product_key p) metas) as Hin
        by (by apply list_elem_of_filter).
      rewrite Hf in Hin. apply list_elem_of_singleton in Hin as ->. done.
    + intros Hnone. by destruct (Hnone m Hm).
Qed.

Lemma enrich_product_data_lookup_witness :
  let metadata_df :=
    Enrichment.mkMetadata
      ["id"; "description"; "rating"; "availability_status"; "product_id_api"]
      [Enrichment.mkMetaRow (CStr " 2") (Some "20") None (Some 4%Q) None;
       Enrichment.mkMetaRow (CInt 3) (Some "30") (Some "red") None
         (Some "in stock")] in
  let products_df :=
    [mkProduct (CInt 1) (Some "pen") (Some "Books") (NNum 2);
     mkProduct (CInt 2) (Some "ink") (Some "Books") (NNum 3)] in
  Enrichment.rows metadata_df ≠ []
  ∧ NoDup (meta_key <$> Enrichment.rows metadata_df)
  ∧ Enrichment.e_description
    <$> Enrichment.enrich_product_data products_df metadata_df
    = [Some "No description available"; Some "No description available"]
  ∧ Enrichment.e_rating
    <$> Enrichment.enrich_product_data products_df metadata_df
    = [Some 0%Q; Some 4%Q]
  ∧ length (Enrichment.enrich_product_data products_df metadata_df)
    = length products_df.
Proof.
  intros metadata_df products_df.
  assert (Enrichment.rows metadata_df ≠ []) as Hne by done.
  assert (NoDup (meta_key <$> Enrichment.rows metadata_df)) as Hnodup.
  { apply (bool_decide_unpack _). vm_compute. exact I. }
  split; [exact Hne|]. split; [exact Hnodup|].
  split; [reflexivity|]. split; [reflexivity|]. symmetry.
  exact (Forall2_length _ _ _
           (enrich_product_data_lookup products_df metadata_df Hne Hnodup)).
Defined.

(** X10. When the first request already ends the loop (an empty page, a
    status other than 200 or a failed request) or the page ceiling is below
    1, [fetch_product_metadata] returns the empty frame, and enrichment with
    it gives every product, unchanged and in order, the three default
    values: an unreachable API costs no product row. *)
Theorem unreachable_api_gives_defaults
    (api : Z → Enrichment.response) (max_pages : Z)
    (products_df : list product) :
  stops (api 1) ∨ max_pages < 1 →
  Enrichment.fetch_product_metadata api max_pages
  = Some Enrichment.empty_metadata
  ∧ Enrichment.enrich_product_data products_df
    <$> Enrichment.fetch_product_metadata api max_pages
    = Some ((λ p, Enrichment.mkEnriched p None
                    (Some "No description available")
                    (Some 0%Q) (Some "Unknown"))
            <$> products_df).
Proof.
  intros Hdown.
  assert (Enrichment.fetch_product_metadata api max_pages
          = Some Enrichment.empty_metadata) as ->.
  { unfold Enrichment.fetch_product_metadata.
    rewrite (fetch_loop_fetched api _ 1 [] []); [done|].
    split; [simpl; lia|]. split; [by intros i d ?|].
    simpl. intros Hlt. destruct Hdown as [Hstop|Hlow]; [done|lia]. }
  done.
Qed.

Lemma unreachable_api_gives_defaults_witness :
  let api (page : Z) := Enrichment.Response 503 [] in
  let products_df := [mkProduct (CInt 1) (Some "pen") (Some "Books") (NNum 2)] in
  (stops (api 1) ∨ 5 < 1)
  ∧ Enrichment.enrich_product_data products_df
    <$> Enrichment.fetch_product_metadata api 5
    = Some [Enrichment.mkEnriched
              (mkProduct (CInt 1) (Some "pen") (Some "Books") (NNum 2))
              None (Some "No description available") (Some 0%Q)
              (Some "Unknown")].
Proof.
  intros api products_df.
  assert (stops (api 1) ∨ 5 < 1) as Hdown by (left; left; done).
  split; [exact Hdown|].
  exact (proj2 (unreachable_api_gives_defaults api 5 products_df Hdown)).
Defined.

(** X11. The fetcher never looks past the page that ends the loop, nor past
    the ceiling: if it fetched the pages 1..k from one API, then any API that
    answers the pages 1..k+1 in the same way gives the same frame, whatever
    it would answer later; and k is at most the ceiling. *)
Theorem fetch_product_metadata_ignores_later_pages
    (api api' : Z → Enrichment.response) (max_pages : Z)
    (pages : list (list Enrichment.api_record)) :
  fetched api 1 (Z.to_nat max_pages) pages →
  (∀ page, 1 ≤ page ≤ 1 + Z.of_nat (length pages) → api' page = api page) →
  Z.of_nat (length pages) ≤ Z.max 0 max_pages
  ∧ Enrichment.fetch_product_metadata api' max_pages
    = Enrichment.fetch_product_metadata api max_pages.
Proof.
  intros (Hlen & Hserved & Hstop) Hsame. split; [lia|].
  unfold Enrichment.fetch_product_metadata.
  rewrite (fetch_loop_fetched api _ 1 [] pages) by done.
  rewrite (fetch_loop_fetched api' _ 1 [] pages); [done|].
  split; [done|]. split.
  - intros i d Hi. rewrite Hsame; [by apply Hserved|].
    apply lookup_lt_Some in Hi. lia.
  - intros Hlt. rewrite Hsame; [by apply Hstop|lia].
Qed.

Lemma fetch_product_metadata_ignores_later_pages_witness :
  let r (n : Z) :=
    Enrichment.mkApiRecord (Some (CInt n)) (Some (CStr "d")) (Some (NNum 4))
      (Some (CStr "in stock")) (Some (CInt n)) in
  let api (page : Z) :=
    if page =? 1 then Enrichment.Response 200 [r 1]
    else if page =? 2 then Enrichment.RequestException
    else Enrichment.Response 200 [r 3] in
  let api' (page : Z) :=
    if page =? 1 then Enrichment.Response 200 [r 1]
    else if page =? 2 then Enrichment.RequestException
    else Enrichment.Response 404 [] in
  fetched api 1 (Z.to_nat 5) [[r 1]]
  ∧ Enrichment.fetch_product_metadata api' 5
    = Enrichment.fetch_product_metadata api 5.
Proof.
  intros r api api'.
  assert (fetched api 1 (Z.to_nat 5) [[r 1]]) as Hfetched.
  { split; [simpl; lia|]. split.
    - intros [|i] d Hi; [|by destruct i].
      injection Hi as <-. by split.
    - intros _. exact I. }
  assert (∀ page, 1 ≤ page ≤ 1 + Z.of_nat (length [[r 1]])
                  → api' page = api page) as Hsame.
  { intros page Hpage. simpl in Hpage. unfold api, api'.
    destruct (Z.eqb_spec page 1); [done|].
    destruct (Z.eqb_spec page 2); [done|lia]. }
  split; [exact Hfetched|].
  exact (proj2 (fetch_product_metadata_ignores_later_pages api api' 5
                  [[r 1]] Hfetched Hsame)).
Defined.

(** ** Product and sale transforms *)

Lemma score_of_max (total : gmap string Z) (m : Z) (x : cell) :
  0 < m → Enrichment.series_get total x = m →
  (Enrichment.score total m x == 100)%Q.
Proof.
  intros Hpos Hx. unfold Enrichment.score. rewrite Hx.
  destruct m as [|p|p]; try lia.
  unfold Qeq, Qdiv, Qmult, Qinv. simpl. lia.
Qed.

(** X12. When some product key has a positive summed quantity, the maximum
    is reached by a key of the sales frame, and every product row carrying
    such a best-selling key gets the score 100. *)
Theorem best_seller_scores_100
    (products_df : list Enrichment.enriched_product)
    (sales_df : list raw_sale) (m : Z) :
  Enrichment.series_max (Enrichment.total_sales_quantity sales_df) = Some m →
  0 < m →
  (∃ k, k ∈ sales_keys sales_df ∧ summed_quantity sales_df k = m)
  ∧ Forall2 (λ e s,
       ∀ k, product_id (Enrichment.e_product e) = CStr k →
            summed_quantity sales_df k = m →
            (Enrichment.popularity_score s == 100)%Q)
      products_df (Enrichment.transform_products products_df sales_df).
Proof.
  intros Hmax Hpos. split.
  - destruct (series_max_spec _ m Hmax) as [[k Hk] _]. exists k.
    rewrite total_sales_quantity_lookup in Hk.
    case_decide; [|done]. split; [done|congruence].
  - unfold Enrichment.transform_products. rewrite Hmax.
    destruct (Z.ltb_spec 0 m) as [_|?]; [|lia].
    induction products_df as [|e l IH]; [constructor|].
    rewrite fmap_cons. constructor; [|exact IH].
    intros k Hid Hk. simpl. apply score_of_max; [done|].
    rewrite Hid, series_get_summed. done.
Qed.

Lemma best_seller_scores_100_witness :
  let sales_df :=
    [mkRawSale (Some 1) (Some 1) (Some 1) (Some 4) (Some "2024-06-01");
     mkRawSale (Some 2) (Some 2) (Some 1) (Some 7) (Some "2024-06-02");
     mkRawSale (Some 3) (Some 2) (Some 1) (Some 3) None] in
  let products_df :=
    Enrichment.with_defaults
    <$> [mkProduct (CStr "1") None None NNaN;
         mkProduct (CStr "2") None None NNaN] in
  Enrichment.series_max (Enrichment.total_sales_quantity sales_df) = Some 10
  ∧ ∃ k, k ∈ sales_keys sales_df ∧ summed_quantity sales_df k = 10.
Proof.
  intros sales_df products_df.
  assert (Enrichment.series_max (Enrichment.total_sales_quantity sales_df)
          = Some 10) as Hmax by reflexivity.
  split; [exact Hmax|].
  exact (proj1 (best_seller_scores_100 products_df sales_df 10 Hmax
                  ltac:(lia))).
Defined.

(** X13. In the pipeline the products frame given to [transform_sales] comes
    from [transform_products]: every row of the transformed sales then has a
    price that is 0 or more, since a price that parsed was replaced by its
    absolute value and the sales of a product whose price did not parse are
    dropped. *)
Theorem transformed_sales_prices_nonnegative
    (products_df : list Enrichment.enriched_product)
    (sales_df sales_df' : list raw_sale) :
  Forall (λ t, ∃ q, Enrichment.ts_price t = Some q ∧ (0 <= q)%Q)
    (Enrichment.transform_sales sales_df'
       (Enrichment.transform_products products_df sales_df)).
Proof.
  rewrite transform_sales_by_row. apply Forall_forall.
  intros t (r & Ht & _)%list_elem_of_bind.
  apply list_elem_of_fmap in Ht as (q & -> & Hq).
  exists q. split; [done|].
  apply resolved_prices_elem in Hq as (p & Hp & _ & Hprice).
  unfold Enrichment.transform_products in Hp.
  apply list_elem_of_fmap in Hp as (e & -> & _).
  simpl in Hprice. unfold Enrichment.abs_price in Hprice.
  destruct (to_numeric (price (Enrichment.e_product e))) as [x|];
    [|discriminate].
  simpl in Hprice. injection Hprice as <-. apply Qabs_nonneg.
Qed.

Lemma lower_char_idem (a : ascii) :
  Enrichment.lower_char (Enrichment.lower_char a) = Enrichment.lower_char a.
Proof. by destruct a as [[] [] [] [] [] [] [] []]. Qed.

Lemma upper_lower_upper (a : ascii) :
  Enrichment.upper_char (Enrichment.lower_char (Enrichment.upper_char a))
  = Enrichment.upper_char a.
Proof. by destruct a as [[] [] [] [] [] [] [] []]. Qed.

Lemma lower_upper_lower (a : ascii) :
  Enrichment.lower_char (Enrichment.upper_char (Enrichment.lower_char a))
  = Enrichment.lower_char a.
Proof. by destruct a as [[] [] [] [] [] [] [] []]. Qed.

(** Normalising a category twice is normalising it once. *)
Lemma lower_capitalize_idem (s : string) :
  Enrichment.lower_capitalize (Enrichment.lower_capitalize s)
  = Enrichment.lower_capitalize s.
Proof.
  unfold Enrichment.lower_capitalize.
  destruct (String.list_ascii_of_string s) as [|a l]; [done|].
  rewrite fmap_cons. rewrite String.list_ascii_of_string_of_list_ascii.
  rewrite fmap_cons, <- list_fmap_compose. f_equal.
  rewrite upper_lower_upper. f_equal.
  apply list_fmap_ext. intros _ x _. apply lower_char_idem.
Qed.

Lemma abs_price_idem (c : num_cell) :
  Enrichment.abs_price (Enrichment.abs_price c) = Enrichment.abs_price c.
Proof.
  unfold Enrichment.abs_price at 2 3.
  destruct (to_numeric c) as [q|]; [|done].
  unfold Enrichment.abs_price. simpl. f_equal.
  destruct q as [n d]. unfold Qabs. by rewrite Z.abs_idemp.
Qed.

(** X14. [transform_products] can be run again on its own output: with the
    same sales frame, the second run returns the frame of the first (category
    case, absolute prices and scores are already in place), and a run keeps
    the rows, their order, their product_id and their enrichment columns. *)
Theorem transform_products_idempotent
    (products_df : list Enrichment.enriched_product)
    (sales_df : list raw_sale) :
  let out := Enrichment.transform_products products_df sales_df in
  Enrichment.transform_products (Enrichment.s_row <$> out) sales_df = out
  ∧ Forall2 (λ e s,
       product_id (Enrichment.e_product (Enrichment.s_row s))
       = product_id (Enrichment.e_product e)
       ∧ product_name (Enrichment.e_product (Enrichment.s_row s))
         = product_name (Enrichment.e_product e)
       ∧ Enrichment.e_description (Enrichment.s_row s)
         = Enrichment.e_description e
       ∧ Enrichment.e_rating (Enrichment.s_row s) = Enrichment.e_rating e
       ∧ Enrichment.e_availability_status (Enrichment.s_row s)
         = Enrichment.e_availability_status e)
      products_df out.
Proof.
  intros out. subst out. unfold Enrichment.transform_products. split.
  - rewrite <- !list_fmap_compose. apply list_fmap_ext. intros _ e _.
    simpl. f_equal. unfold Enrichment.transform_product_columns. simpl.
    rewrite abs_price_idem. f_equal. f_equal.
    destruct (category (Enrichment.e_product e)) as [c|]; [|done].
    simpl. by rewrite lower_capitalize_idem.
  - induction products_df as [|e l IH]; [constructor|].
    rewrite fmap_cons. by constructor.
Qed.

(** ** etl_data_enrichment.py: [transform_customers] *)

Lemma split_blank_spec (l : list ascii) :
  let '(first, rest) := CustomerTransform.split_blank l in
  (" "%char ∉ first)
  ∧ match rest with
    | Some t => l = first ++ " "%char :: t
    | None => l = first
    end.
Proof.
  induction l as [|a l IH]; simpl; [split; [apply not_elem_of_nil|done]|].
  destruct (Ascii.eqb_spec a " "%char) as [->|Hne].
  - split; [apply not_elem_of_nil|done].
  - destruct (CustomerTransform.split_blank l) as [first rest].
    destruct IH as [Hfirst Hrest]. split.
    + intros [Ha|Hin]%elem_of_cons; [by apply Hne|done].
    + destruct rest; by rewrite Hrest.
Qed.

Lemma string_of_list_ascii_app_blank (first t : list ascii) :
  String.string_of_list_ascii (first ++ " "%char :: t)
  = String.string_of_list_ascii first +:+ " "
    +:+ String.string_of_list_ascii t.
Proof. induction first as [|a l IH]; simpl; [done|by rewrite IH]. Qed.

(** The split of one name: the first part holds no blank, and the parts put
    back around one blank give the name. *)
Lemma split_name_spec (n : string) :
  let '(first, rest) := CustomerTransform.split_name n in
  Customers.contains_char " " first = false
  ∧ match rest with
    | Some l => n = first +:+ " " +:+ l
    | None => n = first ∧ Customers.contains_char " " n = false
    end.
Proof.
  unfold CustomerTransform.split_name.
  pose proof (split_blank_spec (String.list_ascii_of_string n)) as Hspec.
  destruct (CustomerTransform.split_blank (String.list_ascii_of_string n))
    as [first rest].
  destruct Hspec as [Hfirst Hrest].
  assert (Customers.contains_char " " (String.string_of_list_ascii first)
          = false) as Hno.
  { unfold Customers.contains_char.
    rewrite String.list_ascii_of_string_of_list_ascii.
    by apply bool_decide_eq_false. }
  split; [done|]. destruct rest as [t|]; simpl.
  - rewrite <- string_of_list_ascii_app_blank, <- Hrest.
    by rewrite String.string_of_list_ascii_of_string.
  - rewrite <- Hrest, String.string_of_list_ascii_of_string.
    split; [done|]. unfold Customers.contains_char. rewrite Hrest.
    by apply bool_decide_eq_false.
Qed.

Lemma categorize_cases (count : nat) :
  CustomerTransform.categorize count
  = if decide (10 < count)%nat then "Frequent Buyer"
    else if decide (5 ≤ count)%nat then "Occasional Buyer"
    else "Rare Buyer".
Proof.
  unfold CustomerTransform.categorize.
  repeat case_bool_decide; repeat case_decide; try done; lia.
Qed.

Lemma by_customer_id_refl : Reflexive by_customer_id.
Proof.
  intros a. unfold by_customer_id.
  destruct (Customers.customer_id _); simpl; [lia|done].
Qed.

Lemma by_customer_id_trans : Transitive by_customer_id.
Proof.
  intros a b c. unfold by_customer_id.
  destruct (Customers.customer_id (CustomerTransform.tc_customer a)),
    (Customers.customer_id (CustomerTransform.tc_customer b)),
    (Customers.customer_id (CustomerTransform.tc_customer c));
    simpl; try done; lia.
Qed.

Lemma by_customer_id_total : Total by_customer_id.
Proof.
  intros a b. unfold by_customer_id.
  destruct (Customers.customer_id (CustomerTransform.tc_customer a)),
    (Customers.customer_id (CustomerTransform.tc_customer b));
    simpl; try (by left); try (by right). lia.
Qed.

(** The transformed frame before and after the Permutation of the sort. *)
Lemma transformed_rows (customers_df : list Customers.customer)
    (sales_df : list Enrichment.transformed_sale)
    (rows : list CustomerTransform.transformed_customer) :
  CustomerTransform.transform_customers customers_df sales_df
  = CustomerTransform.Transformed rows →
  Exists CustomerTransform.splits_in_two customers_df
  ∧ rows
    = Dedup.drop_duplicates_last
        (Customers.email ∘ CustomerTransform.tc_customer)
        (merge_sort by_customer_id
           (CustomerTransform.add_columns sales_df <$> customers_df)).
Proof.
  unfold CustomerTransform.transform_customers.
  destruct (decide (Exists CustomerTransform.splits_in_two customers_df));
    [|done].
  intros [= <-]. by split.
Qed.

Lemma sorted_customers (l : list CustomerTransform.transformed_customer) :
  StronglySorted by_customer_id (merge_sort by_customer_id l).
Proof.
  apply (@StronglySorted_merge_sort _ by_customer_id _
           by_customer_id_trans by_customer_id_total).
Qed.

(** X15. In the frame [transform_customers] returns, every row is an input
    row with three derived columns.  first_name is the name up to its first
    blank and holds no blank; last_name is everything after that blank, so
    first_name, one blank and last_name give the name back; a name without a
    blank is the first_name, with a null last_name.  buyer_category is
    Frequent Buyer above 10 transactions of that customer_id in the sales
    frame, Occasional Buyer from 5 to 10 and Rare Buyer below 5. *)
Theorem transform_customers_derived_columns
    (customers_df : list Customers.customer)
    (sales_df : list Enrichment.transformed_sale)
    (rows : list CustomerTransform.transformed_customer) :
  CustomerTransform.transform_customers customers_df sales_df
  = CustomerTransform.Transformed rows →
  Forall (λ t,
     let c := CustomerTransform.tc_customer t in
     let count := CustomerTransform.transaction_count sales_df
                    (Customers.customer_id c) in
     c ∈ customers_df
     ∧ match Customers.name c with
       | None => CustomerTransform.first_name t = None
                 ∧ CustomerTransform.last_name t = None
       | Some n =>
           ∃ first, CustomerTransform.first_name t = Some first
                    ∧ Customers.contains_char " " first = false
                    ∧ match CustomerTransform.last_name t with
                      | Some last => n = first +:+ " " +:+ last
                      | None => n = first
                      end
       end
     ∧ CustomerTransform.buyer_category t
       = (if decide (10 < count)%nat then "Frequent Buyer"
          else if decide (5 ≤ count)%nat then "Occasional Buyer"
          else "Rare Buyer")) rows.
Proof.
  intros [_ ->]%transformed_rows. apply Forall_forall. intros t Ht.
  apply drop_duplicates_last_elem in Ht.
  rewrite merge_sort_Permutation in Ht.
  apply list_elem_of_fmap in Ht as (c & -> & Hc). simpl.
  split; [done|]. split; [|apply categorize_cases].
  destruct (Customers.name c) as [n|]; [|done]. simpl.
  pose proof (split_name_spec n) as Hspec.
  destruct (CustomerTransform.split_name n) as [first rest].
  destruct Hspec as [Hfirst Hrest].
  exists first. split; [done|]. split; [done|]. simpl.
  destruct rest; [done|]. by destruct Hrest.
Qed.

(** The scenario of the specification: everything after the first blank is
    the surname. *)
Lemma transform_customers_derived_columns_witness :
  let customers_df :=
    [Customers.mkCustomer (Some 1) (Some "Jean Claude Van Damme")
       (Some "jc@x.org") (Some "BE")] in
  let rows :=
    [CustomerTransform.mkTransformedCustomer
       (Customers.mkCustomer (Some 1) (Some "Jean Claude Van Damme")
          (Some "jc@x.org") (Some "BE"))
       (Some "Jean") (Some "Claude Van Damme") "Rare Buyer"] in
  CustomerTransform.transform_customers customers_df []
  = CustomerTransform.Transformed rows
  ∧ Forall (λ t, CustomerTransform.tc_customer t ∈ customers_df) rows.
Proof.
  intros customers_df rows.
  assert (CustomerTransform.transform_customers customers_df []
          = CustomerTransform.Transformed rows) as Heq by reflexivity.
  split; [exact Heq|].
  eapply Forall_impl;
    [exact (transform_customers_derived_columns customers_df [] rows Heq)|].
  intros t Ht. exact (proj1 Ht).
Defined.

(** X16. The frame [transform_customers] returns holds every email of the
    input exactly once, and the row kept for an email is one with the highest
    customer_id among the input rows of that email (a missing customer_id
    counting as the highest). *)
Theorem transform_customers_one_row_per_email
    (customers_df : list Customers.customer)
    (sales_df : list Enrichment.transformed_sale)
    (rows : list CustomerTransform.transformed_customer) :
  CustomerTransform.transform_customers customers_df sales_df
  = CustomerTransform.Transformed rows →
  NoDup (Customers.email ∘ CustomerTransform.tc_customer <$> rows)
  ∧ ∀ c, c ∈ customers_df →
      ∃ t, t ∈ rows
           ∧ Customers.email (CustomerTransform.tc_customer t)
             = Customers.email c
           ∧ Dedup.id_le (Customers.customer_id c)
               (Customers.customer_id (CustomerTransform.tc_customer t)).
Proof.
  intros [_ ->]%transformed_rows. split.
  - apply drop_duplicates_last_NoDup.
  - intros c Hc.
    destruct (drop_duplicates_last_greatest
                (Customers.email ∘ CustomerTransform.tc_customer)
                by_customer_id (Reflexive0 := by_customer_id_refl)
                (merge_sort by_customer_id
                   (CustomerTransform.add_columns sales_df <$> customers_df))
                (CustomerTransform.add_columns sales_df c))
      as (t & Ht & Hemail & Hle).
    + apply sorted_customers.
    + rewrite merge_sort_Permutation. by apply list_elem_of_fmap_2.
    + exists t. by repeat split.
Qed.

Lemma transform_customers_one_row_per_email_witness :
  let customers_df :=
    [Customers.mkCustomer (Some 7) (Some "Ann Lee") (Some "ann@x.org") None;
     Customers.mkCustomer (Some 2) (Some "Bo") (Some "bo@x.org") None;
     Customers.mkCustomer (Some 4) (Some "A Lee") (Some "ann@x.org") None] in
  ∃ rows,
    CustomerTransform.transform_customers customers_df []
    = CustomerTransform.Transformed rows
    ∧ Customers.customer_id ∘ CustomerTransform.tc_customer <$> rows
      = [Some 2; Some 7]
    ∧ NoDup (Customers.email ∘ CustomerTransform.tc_customer <$> rows).
Proof.
  intros customers_df. eexists. split; [reflexivity|]. split; [reflexivity|].
  exact (proj1 (transform_customers_one_row_per_email customers_df [] _
                  eq_refl)).
Defined.

(** ** Key normalisation *)

Lemma lstrip_head (l : list ascii) (a : ascii) (t : list ascii) :
  lstrip l = a :: t → is_space a = false.
Proof.
  induction l as [|b l IH]; simpl; [done|].
  destruct (is_space b) eqn:Hb; [done|]. by intros [= <- _].
Qed.

Lemma lstrip_idem (l : list ascii) : lstrip (lstrip l) = lstrip l.
Proof.
  destruct (lstrip l) as [|a t] eqn:Hl; [done|].
  simpl. by rewrite (lstrip_head l a t Hl).
Qed.

Lemma lstrip_snoc (u : list ascii) (a : ascii) :
  is_space a = false → lstrip (u ++ [a]) = lstrip u ++ [a].
Proof.
  intros Ha. induction u as [|b u IH]; simpl; [by rewrite Ha|].
  by destruct (is_space b).
Qed.

(** Stripping a stripped text changes nothing. *)
Lemma strip_idem (s : string) : strip (strip s) = strip s.
Proof.
  unfold strip. rewrite String.list_ascii_of_string_of_list_ascii. f_equal.
  destruct (lstrip (String.list_ascii_of_string s)) as [|a t] eqn:Hl;
    [done|].
  pose proof (lstrip_head _ a t Hl) as Ha.
  change (rev (a :: t)) with (rev t ++ [a]).
  rewrite (lstrip_snoc (rev t) a Ha), rev_app_distr. simpl. rewrite Ha.
  change (rev (a :: rev (lstrip (rev t)))) with
    (rev (rev (lstrip (rev t))) ++ [a]).
  rewrite rev_involutive, (lstrip_snoc _ a Ha), lstrip_idem, rev_app_distr.
  done.
Qed.

(** X18. Every row of a fetched metadata frame has all five fields filled,
    and its id is a text already in the normal form the enricher joins on:
    the normalisation [enrich_product_data] applies to the metadata ids
    leaves every fetched row as it is. *)
Theorem fetched_rows_are_normalized
    (api : Z → Enrichment.response) (max_pages : Z)
    (frame : Enrichment.metadata) :
  Enrichment.fetch_product_metadata api max_pages = Some frame →
  Forall (λ m,
     Enrichment.normalize_meta m = m
     ∧ (∃ k, Enrichment.meta_id m = CStr k ∧ strip k = k)
     ∧ is_Some (Enrichment.meta_product_id_api m)
     ∧ is_Some (Enrichment.meta_description m)
     ∧ is_Some (Enrichment.meta_rating m)
     ∧ is_Some (Enrichment.meta_availability_status m))
    (Enrichment.rows frame).
Proof.
  unfold Enrichment.fetch_product_metadata.
  destruct (Enrichment.fetch_loop api (Z.to_nat max_pages) 1 [])
    as [|r l]; [intros [= <-]; constructor|].
  case_decide; [|done]. intros Hframe. injection Hframe as <-.
  apply Forall_forall. intros m Hm.
  change (m ∈ Enrichment.normalize_record <$> r :: l) in Hm.
  apply list_elem_of_fmap in Hm as (x & -> & _).
  unfold compose, Enrichment.normalize_meta, Enrichment.normalize_record,
    normalize_key. simpl. rewrite !strip_idem.
  repeat split; try by eexists.
  eexists. split; [done|]. apply strip_idem.
Qed.

Lemma fetched_rows_are_normalized_witness :
  let r :=
    Enrichment.mkApiRecord (Some (CInt 7)) (Some (CStr "d")) (Some (NNum 4))
      (Some (CStr "in stock")) (Some (CInt 7)) in
  let api (page : Z) :=
    if page =? 1 then Enrichment.Response 200 [r]
    else Enrichment.Response 200 [] in
  ∃ frame,
    Enrichment.fetch_product_metadata api 5 = Some frame
    ∧ length (Enrichment.rows frame) = 1%nat
    ∧ Forall (λ m,
         Enrichment.normalize_meta m = m
         ∧ (∃ k, Enrichment.meta_id m = CStr k ∧ strip k = k)
         ∧ is_Some (Enrichment.meta_product_id_api m)
         ∧ is_Some (Enrichment.meta_description m)
         ∧ is_Some (Enrichment.meta_rating m)
         ∧ is_Some (Enrichment.meta_availability_status m))
        (Enrichment.rows frame).
Proof.
  intros r api. eexists. split; [reflexivity|]. split; [reflexivity|].
  eapply (fetched_rows_are_normalized api 5). reflexivity.
Defined.

(** ** load_data.py: [clean_products] *)

Lemma clean_price_idem (c : num_cell) :
  LoadData.clean_price (LoadData.clean_price c) = LoadData.clean_price c.
Proof.
  unfold LoadData.clean_price. simpl. f_equal.
  unfold LoadData.clip_lower_0.
  destruct (Qle_bool 0 (default 0%Q (to_numeric c))) eqn:Hq.
  - by rewrite Hq.
  - done.
Qed.

Lemma clean_category_valid (c : option string) :
  LoadData.clean_category c ∈ "Other" :: LoadData.valid_categories.
Proof.
  unfold LoadData.clean_category. destruct c as [x|]; [|left].
  case_bool_decide; [by right|left].
Qed.

Lemma clean_category_idem (c : option string) :
  LoadData.clean_category (Some (LoadData.clean_category c))
  = LoadData.clean_category c.
Proof.
  unfold LoadData.clean_category at 1 3. destruct c as [x|].
  - unfold LoadData.clean_category.
    destruct (bool_decide (x ∈ LoadData.valid_categories)) eqn:Hx.
    + by rewrite Hx.
    + done.
  - done.
Qed.

(** X19. [clean_products] keeps every row in place with its product_id,
    leaves no null name, puts every category in the set Electronics,
    Clothing, Books, Food, Other, and can be run again: cleaning a cleaned
    frame returns it unchanged. *)
Theorem clean_products_normal_form (df : list product) :
  let out := LoadData.clean_products df in
  LoadData.clean_products out = out
  ∧ Forall2 (λ p o,
       product_id o = product_id p
       ∧ product_name o = Some (default "Unknown" (product_name p))
       ∧ ∃ c, category o = Some c
              ∧ c ∈ ["Other"; "Electronics"; "Clothing"; "Books"; "Food"]
              ∧ (c = "Other"
                 ∨ category p = Some c)) df out.
Proof.
  intros out. subst out. unfold LoadData.clean_products. split.
  - rewrite <- list_fmap_compose. apply list_fmap_ext. intros _ p _.
    cbn [compose category price product_id product_name default from_option].
    by rewrite clean_price_idem, clean_category_idem.
  - induction df as [|p l IH]; [constructor|].
    rewrite fmap_cons. constructor; [|exact IH]. simpl.
    split; [done|]. split; [done|].
    exists (LoadData.clean_category (category p)).
    split; [done|]. split; [apply clean_category_valid|].
    unfold LoadData.clean_category. destruct (category p) as [x|]; [|by left].
    case_bool_decide; [by right|by left].
Qed.


